(** * react-ref-manager: a shallow embedding of [RefManager]

    The development follows [RefManager.js] (the documented revision of the
    class): the registry ([set]/[get]), the current-focus record with its
    change listeners, the directional navigator ([focusNext]) and the
    scroll operations.

    JavaScript values are first-order data here, objects live in an explicit
    store (so that aliasing between the registry and the handles stored in
    it is visible), and every call made to the browser or to a listener is
    appended to a trace. *)

From Stdlib Require Import Ascii.
From stdpp Require Import gmap strings list pretty sorting.

Open Scope string_scope.
Open Scope Z_scope.
Open Scope list_scope.

(** ** JavaScript values *)

(** Addresses of objects in the store. *)
Definition loc := nat.

(** Numbers are the integers (identifiers are strings or integers); every
    non-primitive value, a React component, a DOM element, an options hash,
    a listener function or a DOM method, is an object known by its
    address. *)
Inductive jsval : Type :=
  | JUndefined
  | JNull
  | JBool (b : bool)
  | JNum (n : Z)
  | JStr (s : string)
  | JObj (l : loc).

Global Instance jsval_eq_dec : EqDecision jsval.
Proof. solve_decision. Defined.

Global Instance jsval_inhabited : Inhabited jsval := populate JUndefined.

(** [v1 === v2]; without NaN strict equality is equality of values, and of
    addresses for objects. *)
Definition strict_eq (v1 v2 : jsval) : bool := bool_decide (v1 = v2).

(** ToBoolean. *)
Definition truthy (v : jsval) : bool :=
  match v with
  | JUndefined | JNull => false
  | JBool b => b
  | JNum n => negb (n =? 0)%Z
  | JStr s => negb (String.eqb s "")
  | JObj _ => true
  end.

(** [typeof v]. A function is an object whose [typeof] is "function";
    functions occur here as listeners and as DOM methods only, which no
    [typeof] test of the class reaches. *)
Definition typeof (v : jsval) : string :=
  match v with
  | JUndefined => "undefined"
  | JNull => "object"
  | JBool _ => "boolean"
  | JNum _ => "number"
  | JStr _ => "string"
  | JObj _ => "object"
  end.

(** ToPropertyKey: the string under which [obj[v]] reads and writes. *)
Definition to_key (v : jsval) : string :=
  match v with
  | JUndefined => "undefined"
  | JNull => "null"
  | JBool true => "true"
  | JBool false => "false"
  | JNum n => pretty n
  | JStr s => s
  | JObj _ => "[object Object]"
  end.

(** utils/NotProvided.js *)
Definition NotProvided : jsval := JStr "NOT_PROVIDED".

(** A parameter declared [p = NotProvided]: the default is taken when the
    argument is missing or [undefined]. *)
Definition or_NotProvided (v : jsval) : jsval :=
  match v with
  | JUndefined => NotProvided
  | _ => v
  end.

(** FocusDirection.js *)
Module FocusDirection.
Definition LEFT : jsval := JStr "LEFT".
Definition RIGHT : jsval := JStr "RIGHT".
Definition UP : jsval := JStr "UP".
Definition DOWN : jsval := JStr "DOWN".
End FocusDirection.

(** ** Objects and the store *)

(** The own properties of an object, in insertion order. *)
Definition props := list (string * jsval).

Fixpoint prop_lookup (ps : props) (k : string) : option jsval :=
  match ps with
  | [] => None
  | (k', v) :: ps' => if String.eqb k' k then Some v else prop_lookup ps' k
  end.

(** [o[k]] on the properties of [o]: a missing property reads [undefined]. *)
Definition prop_get (ps : props) (k : string) : jsval :=
  default JUndefined (prop_lookup ps k).

(** [o[k] = v]: an existing property keeps its place, a new one goes last. *)
Fixpoint prop_set (ps : props) (k : string) (v : jsval) : props :=
  match ps with
  | [] => [(k, v)]
  | (k', v') :: ps' =>
      if String.eqb k' k then (k', v) :: ps' else (k', v') :: prop_set ps' k v
  end.

(** [{...base, ...src}]: the properties of [src] are written over [base]. *)
Definition obj_assign (base src : props) : props :=
  fold_left (fun acc kv => prop_set acc kv.1 kv.2) src base.

Definition own_props (h : gmap loc props) (v : jsval) : props :=
  match v with
  | JObj l => default [] (h !! l)
  | _ => []
  end.

(** [v[k]] for a value [v] that is not [null] or [undefined]; the
    properties that primitive values inherit are not modelled. *)
Definition get_prop (h : gmap loc props) (v : jsval) (k : string) : jsval :=
  prop_get (own_props h v) k.

(** *** Object.keys *)

Definition digit_of (c : ascii) : option N :=
  let n := N_of_ascii c in
  if ((48 <=? n) && (n <=? 57))%N then Some (n - 48)%N else None.

Fixpoint parse_digits (s : string) (acc : N) : option N :=
  match s with
  | EmptyString => Some acc
  | String c s' =>
      match digit_of c with
      | Some d => parse_digits s' (10 * acc + d)%N
      | None => None
      end
  end.

(** A key is an array index when it is the canonical decimal form of an
    integer below 2^32 - 1. *)
Definition array_index (k : string) : option N :=
  match parse_digits k 0%N with
  | Some n =>
      if (String.eqb (pretty n) k && (n <? 4294967295)%N)%bool then Some n else None
  | None => None
  end.

(** Array indices come first, in ascending order, then the other keys in
    the order in which they were created. *)
Definition ordered_keys (ps : props) : list string :=
  let ks := ps.*1 in
  (pretty <$> merge_sort N.le (omap array_index ks))
  ++ filter (fun k => array_index k = None) ks.

Definition Object_keys (h : gmap loc props) (v : jsval) : list jsval :=
  JStr <$> ordered_keys (own_props h v).

(** ** Arrays *)

(** [arr[i]] for a number [i]. *)
Definition array_get (arr : list jsval) (i : Z) : jsval :=
  if (i <? 0)%Z then JUndefined else default JUndefined (arr !! Z.to_nat i).

Fixpoint indexOf_from {A} `{EqDecision A} (arr : list A) (x : A) (i : Z) : Z :=
  match arr with
  | [] => -1
  | y :: arr' => if decide (y = x) then i else indexOf_from arr' x (i + 1)
  end.

(** [arr.indexOf(x)]: the first position holding [x], or -1. *)
Definition indexOf {A} `{EqDecision A} (arr : list A) (x : A) : Z :=
  indexOf_from arr x 0.

(** [arr.splice(start, deleteCount)], and [arr.splice(start)] when
    [deleteCount] is [None]. The array is changed in place: the result is
    the removed elements together with what the array holds afterwards. *)
Definition splice {A} (arr : list A) (start : Z) (deleteCount : option Z)
  : list A * list A :=
  let len := Z.of_nat (length arr) in
  let actualStart := if (start <? 0)%Z then Z.max (len + start) 0 else Z.min start len in
  let actualDeleteCount :=
    match deleteCount with
    | None => len - actualStart
    | Some dc => Z.min (Z.max dc 0) (len - actualStart)
    end in
  let s := Z.to_nat actualStart in
  let d := Z.to_nat actualDeleteCount in
  (take d (drop s arr), take s arr ++ drop (s + d) arr).

(** ** Focus and scroll objects *)

(** A FocusObject; a property that the object does not have reads
    [undefined], so [{}] is the record of six [undefined]s. *)
Record FocusObject : Type := mkFocus {
  f_ref : jsval;
  f_DOMRef : jsval;
  f_id : jsval;
  f_collectionId : jsval;
  f_context : jsval;
  f_applied : jsval
}.

Global Instance FocusObject_eq_dec : EqDecision FocusObject.
Proof. solve_decision. Defined.

Definition empty_object : FocusObject :=
  mkFocus JUndefined JUndefined JUndefined JUndefined JUndefined JUndefined.

Record ScrollObject : Type := mkScroll {
  s_id : jsval;
  s_collectionId : jsval;
  s_ref : jsval;
  s_DOMRef : jsval;
  s_applied : jsval
}.

Global Instance ScrollObject_eq_dec : EqDecision ScrollObject.
Proof. solve_decision. Defined.

(** ** The instance, the world around it, and the trace *)

(** What the code asks of the browser and of its listeners. A listener is
    a function of the application: the class only calls it, and a listener
    is taken not to call back into the instance while it runs. *)
Inductive event : Type :=
  | DomFocus (el : jsval)                               (* el.focus() *)
  | DomScrollIntoView (el : jsval) (args : list jsval)  (* el.scrollIntoView(...args) *)
  | ListenerCall (listener : jsval) (previousFocus focused : FocusObject).

Global Instance event_eq_dec : EqDecision event.
Proof. solve_decision. Defined.

(** The three fields set up by the constructor. [_refs] is owned by the
    instance and never handed out, so its properties are kept inline; the
    collections it points to are objects of the store. *)
Record RefManager : Type := mkRefManager {
  _refs : props;
  _focused : FocusObject;
  _focusListeners : list jsval
}.

Record World : Type := mkWorld {
  store : gmap loc props;
  this : RefManager;
  trace : list event
}.

Definition with_this (w : World) (rm : RefManager) : World :=
  mkWorld (store w) rm (trace w).

Definition with_store (w : World) (h : gmap loc props) : World :=
  mkWorld h (this w) (trace w).

Definition emit (e : event) (w : World) : World :=
  mkWorld (store w) (this w) (trace w ++ [e]).

(** [new RefManager()] *)
Definition constructor : RefManager := mkRefManager [] empty_object [].

(** A call either returns or throws. *)
Inductive outcome (A : Type) : Type :=
  | Returns (a : A)
  | Throws (error : string).
Arguments Returns {A} a.
Arguments Throws {A} error.

(** The options hash of [focusNext] and [focusNextById]; [None] and
    [JUndefined] stand for a property that was not given. *)
Record NextOptions : Type := mkNextOptions {
  o_direction : jsval;
  o_indexes : option (list jsval);
  o_collectionId : jsval;
  o_context : jsval;
  o_collectionWidth : option Z;
  o_yWrap : option bool;
  o_xWrap : option bool
}.

(** [{}] as an options hash. *)
Definition no_options : NextOptions :=
  mkNextOptions JUndefined None JUndefined JUndefined None None None.

(** ** The class *)

Section RefManager.

(** [ReactDOM.findDOMNode] and [document.activeElement] belong to the
    host; every object that exists has an entry in the store. *)
Variable findDOMNode : jsval -> jsval.
Variable activeElement : jsval.

(** *** Class methods *)

(** [ref && ref === document.activeElement && !!ref.parentNode] *)
Definition static_refIsFocused (ref : jsval) (w : World) : jsval :=
  if truthy ref then
    if strict_eq ref activeElement
    then JBool (truthy (get_prop (store w) ref "parentNode"))
    else JBool false
  else ref.

Definition static_focus (ref : jsval) (w : World) : jsval * World :=
  if truthy ref then
    if truthy (get_prop (store w) ref "focus") then
      (ref, emit (DomFocus ref) w)
    else
      let DOMRef := findDOMNode ref in
      if truthy DOMRef && truthy (get_prop (store w) DOMRef "parentNode") then
        (DOMRef, emit (DomFocus DOMRef) w)
      else (JNull, w)
  else (JNull, w).

Definition static_scrollTo (ref options : jsval) (w : World) : jsval * World :=
  let options := or_NotProvided options in
  if truthy ref then
    if truthy (get_prop (store w) ref "scrollIntoView") then
      (ref, emit (DomScrollIntoView ref []) w)
    else
      let domRef := findDOMNode ref in
      if truthy domRef && truthy (get_prop (store w) domRef "parentNode") then
        (domRef,
         emit (DomScrollIntoView domRef
                 [if strict_eq options NotProvided then JBool false else options]) w)
      else (JNull, w)
  else (JNull, w).

(** *** Storing and retrieving refs *)

Definition set_refs (w : World) (refs : props) : World :=
  with_this w (mkRefManager refs (_focused (this w)) (_focusListeners (this w))).

(** [this._refs[collectionId][itemIdOrRef] = ref] writes to whatever
    object sits under [collectionId]; in the strict mode of a class body
    the write throws when a primitive sits there. *)
Definition set (collectionId itemIdOrRef ref : jsval) (w : World) : outcome World :=
  let itemIdOrRef := or_NotProvided itemIdOrRef in
  let ref := or_NotProvided ref in
  if strict_eq ref NotProvided then
    Returns (set_refs w (prop_set (_refs (this w)) (to_key collectionId) itemIdOrRef))
  else
    let collectionRef := prop_get (_refs (this w)) (to_key collectionId) in
    let w1 :=
      if negb (truthy collectionRef) then
        let l := fresh (dom (store w)) in
        set_refs (with_store w (<[l := []]> (store w)))
                 (prop_set (_refs (this w)) (to_key collectionId) (JObj l))
      else w in
    match prop_get (_refs (this w1)) (to_key collectionId) with
    | JObj l =>
        Returns (with_store w1
          (<[l := prop_set (own_props (store w1) (JObj l)) (to_key itemIdOrRef) ref]>
             (store w1)))
    | _ => Throws "TypeError"
    end.

(** [this._refs] is an object, so the test [this._refs && ...] is the
    test on [itemId]. *)
Definition get (collectionId itemId : jsval) (w : World) : jsval :=
  let collectionId := or_NotProvided collectionId in
  let itemId := or_NotProvided itemId in
  if strict_eq itemId NotProvided then
    prop_get (_refs (this w)) (to_key collectionId)
  else
    let collectionRef := prop_get (_refs (this w)) (to_key collectionId) in
    if truthy collectionRef
    then get_prop (store w) collectionRef (to_key itemId)
    else collectionRef.

(** *** The current focus *)

Definition setCurrentFocus (focused : FocusObject) (w : World) : FocusObject * World :=
  let previousFocus := _focused (this w) in
  let w1 := with_this w (mkRefManager (_refs (this w)) focused (_focusListeners (this w))) in
  let w2 :=
    fold_left (fun acc listener => emit (ListenerCall listener previousFocus focused) acc)
              (_focusListeners (this w1)) w1 in
  (_focused (this w2), w2).

(** [this._focused || {}]: a focus object is an object, hence truthy. *)
Definition getCurrentFocus (w : World) : FocusObject := _focused (this w).

Definition isFocusedRefInDOM (w : World) : jsval :=
  static_refIsFocused (f_DOMRef (getCurrentFocus w)) w.

(** [focus(ref, { id, collectionId, context })] *)
Definition focus (ref : jsval) (options : props) (w : World) : FocusObject * World :=
  let id := prop_get options "id" in
  let collectionId := prop_get options "collectionId" in
  let context := prop_get options "context" in
  if truthy ref then
    let '(DOMRef, w1) := static_focus ref w in
    setCurrentFocus (mkFocus ref DOMRef id collectionId context (JBool (truthy DOMRef))) w1
  else
    (mkFocus JNull JNull id collectionId context (JBool false), w).

(** The function that [focusById] calls in place when [options] is not
    given, to tell an item id from an options hash. The hash is kept as
    the properties that the object literals below spread. *)
Definition focusById_args (itemIdOrOptions : jsval) (w : World) : jsval * props :=
  if strict_eq itemIdOrOptions NotProvided then (JUndefined, [])
  else if String.eqb (typeof itemIdOrOptions) "object" then
    (JUndefined,
     if truthy itemIdOrOptions then own_props (store w) itemIdOrOptions else [])
  else (itemIdOrOptions, []).

(** The two [console.warn] calls of [focusById] write diagnostics only and
    are left out. *)
Definition focusById (collectionId itemIdOrOptions options : jsval) (w : World)
  : FocusObject * World :=
  let itemIdOrOptions := or_NotProvided itemIdOrOptions in
  let options := or_NotProvided options in
  if strict_eq options NotProvided then
    let '(_itemId, _options) := focusById_args itemIdOrOptions w in
    if truthy _itemId then
      focus (get collectionId _itemId w)
            (obj_assign [("id", _itemId); ("collectionId", collectionId)] _options) w
    else
      focus (get collectionId JUndefined w)
            (obj_assign [("collectionId", collectionId)] _options) w
  else
    focus (get collectionId itemIdOrOptions w)
          (obj_assign (own_props (store w) options)
                      [("id", itemIdOrOptions); ("collectionId", collectionId)]) w.

(** *** Directional navigation *)

(** The function that [focusNext] calls in place to pick [nextRefId]. *)
Definition nextRefId (indexesToUse : list jsval) (refIdsIndex : Z)
    (direction : jsval) (collectionWidth : Z) (yWrap xWrap : bool) : jsval :=
  let length := Z.of_nat (length indexesToUse) in
  if strict_eq direction FocusDirection.LEFT then
    let nextRefIndex := refIdsIndex - 1 in
    if 0 <=? nextRefIndex then array_get indexesToUse (refIdsIndex - 1)
    else if xWrap then array_get indexesToUse (length - 1)
    else array_get indexesToUse 0
  else if strict_eq direction FocusDirection.RIGHT then
    let nextRefIndex := refIdsIndex + 1 in
    if nextRefIndex <? length then array_get indexesToUse (refIdsIndex + 1)
    else if xWrap then array_get indexesToUse 0
    else array_get indexesToUse (length - 1)
  else if strict_eq direction FocusDirection.UP then
    let nextRefIndex := refIdsIndex - collectionWidth in
    if 0 <=? nextRefIndex then array_get indexesToUse (refIdsIndex - collectionWidth)
    else if yWrap then array_get indexesToUse (length - 1)
    else array_get indexesToUse 0
  else if strict_eq direction FocusDirection.DOWN then
    let nextRefIndex := refIdsIndex + collectionWidth in
    if nextRefIndex <? length then array_get indexesToUse (refIdsIndex + collectionWidth)
    else if yWrap then array_get indexesToUse 0
    else array_get indexesToUse (length - collectionWidth)
  else JUndefined.

(** [indexes ? indexes : Object.keys(refCollection)]; an array is truthy. *)
Definition indexesToUse (refCollection : jsval) (o : NextOptions) (w : World) : list jsval :=
  match o_indexes o with
  | Some indexes => indexes
  | None => Object_keys (store w) refCollection
  end.

Definition focusNext (refCollection : jsval) (o : NextOptions) (w : World)
  : FocusObject * World :=
  let direction :=
    match o_direction o with JUndefined => FocusDirection.RIGHT | d => d end in
  let collectionId := o_collectionId o in
  let context := o_context o in
  let collectionWidth := default 1 (o_collectionWidth o) in
  let yWrap := default false (o_yWrap o) in
  let xWrap := default false (o_xWrap o) in
  if negb (truthy refCollection) then
    (mkFocus JNull JNull JUndefined collectionId context (JBool false), w)
  else
    let currentFocus := getCurrentFocus w in
    let indexesToUse := indexesToUse refCollection o w in
    let refIdsIndex := indexOf indexesToUse (f_id currentFocus) in
    if negb (strict_eq (f_collectionId currentFocus) collectionId)
       || (refIdsIndex =? -1) then
      let firstRefId := array_get indexesToUse 0 in
      focus (get_prop (store w) refCollection (to_key firstRefId))
            [("id", firstRefId); ("collectionId", collectionId); ("context", context)] w
    else
      let nextRefId :=
        nextRefId indexesToUse refIdsIndex direction collectionWidth yWrap xWrap in
      let nextRef := get_prop (store w) refCollection (to_key nextRefId) in
      focus nextRef
            [("id", nextRefId); ("collectionId", collectionId); ("context", context)] w.

(** [focusNext(this.get(collectionId), { ...options, collectionId })] *)
Definition focusNextById (collectionId : jsval) (o : NextOptions) (w : World)
  : FocusObject * World :=
  let refCollection := get collectionId JUndefined w in
  focusNext refCollection
    (mkNextOptions (o_direction o) (o_indexes o) collectionId (o_context o)
                   (o_collectionWidth o) (o_yWrap o) (o_xWrap o)) w.

(** *** Scrolling *)

(** The function that [scrollToById] calls in place to split its
    arguments into [_itemId] and [_options]. *)
Definition scrollToById_args (itemIdOrOptions options : jsval) : jsval * jsval :=
  if strict_eq options NotProvided then
    if strict_eq itemIdOrOptions NotProvided then (NotProvided, NotProvided)
    else if String.eqb (typeof itemIdOrOptions) "string" then
      (itemIdOrOptions, NotProvided)
    else (NotProvided, itemIdOrOptions)
  else (itemIdOrOptions, options).

Definition scrollToById (collectionId itemIdOrOptions options : jsval) (w : World)
  : ScrollObject * World :=
  let itemIdOrOptions := or_NotProvided itemIdOrOptions in
  let options := or_NotProvided options in
  let '(_itemId, _options) := scrollToById_args itemIdOrOptions options in
  let ref := get collectionId _itemId w in
  if truthy ref then
    let '(scrolledToRef, w1) :=
      static_scrollTo (get_prop (store w) ref "DOMRef") _options w in
    (mkScroll _itemId collectionId ref scrolledToRef (JBool (truthy scrolledToRef)), w1)
  else
    (mkScroll _itemId collectionId JNull JNull (JBool false), w).

(** The test [if (currentFocusRef)] is on a focus object and so always
    takes its first branch. *)
Definition scrollToFocused (options : jsval) (w : World) : ScrollObject * World :=
  let options := or_NotProvided options in
  let currentFocusRef := getCurrentFocus w in
  let '(scrolledToRef, w1) := static_scrollTo (f_DOMRef currentFocusRef) options w in
  (mkScroll (f_id currentFocusRef) (f_collectionId currentFocusRef)
            (f_ref currentFocusRef) scrolledToRef (JBool (truthy scrolledToRef)), w1).

(** *** Focus listeners *)

Definition set_listeners (w : World) (listeners : list jsval) : World :=
  with_this w (mkRefManager (_refs (this w)) (_focused (this w)) listeners).

Definition addFocusChangeListener (listener : jsval) (w : World) : jsval * World :=
  (listener, set_listeners w (_focusListeners (this w) ++ [listener])).

(** Both [splice] calls act on the array held by [this._focusListeners]
    before the assignment: the second one sees what the first one left. *)
Definition removeFocusChangeListener (listener : jsval) (w : World) : World :=
  let listenerIndex := indexOf (_focusListeners (this w)) listener in
  if negb (listenerIndex =? -1) then
    let '(head, rest) := splice (_focusListeners (this w)) 0 (Some listenerIndex) in
    let '(tail, _) := splice rest (listenerIndex + 1) None in
    set_listeners w (head ++ tail)
  else w.

End RefManager.

(** [this.focus(refCollection[next], { id: next, collectionId, context })],
    the call in which both branches of [focusNext] end. *)
Definition focus_item (findDOMNode : jsval -> jsval) (refCollection : jsval)
    (o : NextOptions) (w : World) (next : jsval) : FocusObject * World :=
  focus findDOMNode (get_prop (store w) refCollection (to_key next))
        [("id", next); ("collectionId", o_collectionId o); ("context", o_context o)] w.

(** The operations of an instance, as one type of calls. *)
Inductive call : Type :=
  | Call_set (collectionId itemIdOrRef ref : jsval)
  | Call_get (collectionId itemId : jsval)
  | Call_setCurrentFocus (focused : FocusObject)
  | Call_getCurrentFocus
  | Call_isFocusedRefInDOM
  | Call_focus (ref : jsval) (options : props)
  | Call_focusById (collectionId itemIdOrOptions options : jsval)
  | Call_focusNextById (collectionId : jsval) (o : NextOptions)
  | Call_focusNext (refCollection : jsval) (o : NextOptions)
  | Call_scrollToById (collectionId itemIdOrOptions options : jsval)
  | Call_scrollToFocused (options : jsval)
  | Call_addFocusChangeListener (listener : jsval)
  | Call_removeFocusChangeListener (listener : jsval)
  | Call_static_focus (ref : jsval)
  | Call_static_scrollTo (ref options : jsval)
  | Call_static_refIsFocused (ref : jsval).

(** The world after a call. *)
Definition run (findDOMNode : jsval -> jsval) (c : call) (w : World) : outcome World :=
  match c with
  | Call_set collectionId itemIdOrRef ref => set collectionId itemIdOrRef ref w
  | Call_get _ _ | Call_getCurrentFocus | Call_isFocusedRefInDOM
  | Call_static_refIsFocused _ => Returns w
  | Call_setCurrentFocus focused => Returns (setCurrentFocus focused w).2
  | Call_focus ref options => Returns (focus findDOMNode ref options w).2
  | Call_focusById c i o => Returns (focusById findDOMNode c i o w).2
  | Call_focusNextById c o => Returns (focusNextById findDOMNode c o w).2
  | Call_focusNext rc o => Returns (focusNext findDOMNode rc o w).2
  | Call_scrollToById c i o => Returns (scrollToById findDOMNode c i o w).2
  | Call_scrollToFocused o => Returns (scrollToFocused findDOMNode o w).2
  | Call_addFocusChangeListener l => Returns (addFocusChangeListener l w).2
  | Call_removeFocusChangeListener l => Returns (removeFocusChangeListener l w)
  | Call_static_focus ref => Returns (static_focus findDOMNode ref w).2
  | Call_static_scrollTo ref o => Returns (static_scrollTo findDOMNode ref o w).2
  end.

Definition is_listener_call (e : event) : bool :=
  match e with
  | ListenerCall _ _ _ => true
  | _ => false
  end.

(** The listener invocations of a trace, in order. *)
Definition listener_calls (t : list event) : list event :=
  List.filter is_listener_call t.

(** A step of the world that leaves the instance and the store as they
    are and calls no listener; the browser may have been called. *)
Definition instance_untouched (w w' : World) : Prop :=
  this w' = this w /\ store w' = store w
  /\ listener_calls (trace w') = listener_calls (trace w).

(** The two ways in which a focus operation started in [w] can end: with
    a record whose [ref] is [null], not applied, and the world as it was; or
    with a record of a ref that is now the current focus, the registry, the
    store and the listeners being what they were. *)
Definition focus_outcome (w : World) (res : FocusObject * World) : Prop :=
  (f_ref res.1 = JNull /\ f_DOMRef res.1 = JNull /\ f_applied res.1 = JBool false
   /\ res.2 = w)
  \/ (truthy (f_ref res.1) = true
      /\ f_applied res.1 = JBool (truthy (f_DOMRef res.1))
      /\ getCurrentFocus res.2 = res.1
      /\ _refs (this res.2) = _refs (this w)
      /\ store res.2 = store w
      /\ _focusListeners (this res.2) = _focusListeners (this w)).

(** The calls that write to the registry, to the listeners and to the
    current focus. *)
Definition writes_registry (c : call) : bool :=
  match c with
  | Call_set _ _ _ => true
  | _ => false
  end.

Definition writes_listeners (c : call) : bool :=
  match c with
  | Call_addFocusChangeListener _ | Call_removeFocusChangeListener _ => true
  | _ => false
  end.

Definition writes_focus (c : call) : bool :=
  match c with
  | Call_setCurrentFocus _ | Call_focus _ _ | Call_focusById _ _ _
  | Call_focusNextById _ _ | Call_focusNext _ _ => true
  | _ => false
  end.

(** ** The earlier revision of the class

    The repository also holds an earlier text of [RefManager]. Its [set],
    [get], [setCurrentFocus], [getCurrentFocus], [addFocusChangeListener]
    and [removeFocusChangeListener] are those above, word for word, and so
    are the two functions called in place by [focusById] and [focusNext];
    the methods below differ. Focus objects have the properties [ref], [id]
    and [context] only, several methods return nothing ([None]), and calls
    are made on what [findDOMNode] returns without a test: on [null] or
    [undefined] they throw. [findDOMNode] is taken to return [null] or a
    node that has the method called. *)
Module Legacy.

Section RefManager.

Variable findDOMNode : jsval -> jsval.
Variable activeElement : jsval.

(** [ref && ref === document.activeElement && ref.parentNode] *)
Definition static_refIsFocused (ref : jsval) (w : World) : jsval :=
  if truthy ref then
    if strict_eq ref activeElement
    then get_prop (store w) ref "parentNode"
    else JBool false
  else ref.

(** [ReactDOM.findDOMNode(ref).scrollIntoView(false)] *)
Definition static_scrollTo (ref : jsval) (w : World) : outcome World :=
  if truthy ref then
    if truthy (get_prop (store w) ref "scrollIntoView") then
      Returns (emit (DomScrollIntoView ref []) w)
    else
      match findDOMNode ref with
      | JNull | JUndefined => Throws "TypeError"
      | node => Returns (emit (DomScrollIntoView node [JBool false]) w)
      end
  else Returns w.

Definition isFocusedRefInDOM (w : World) : jsval :=
  static_refIsFocused (f_ref (getCurrentFocus w)) w.

(** [focus(ref, options)]; [None] for options that were not given. The
    browser is asked first, [options.DOMOnly] is read next. *)
Definition focus (ref : jsval) (options : option props) (w : World)
  : outcome (option FocusObject * World) :=
  if truthy ref then
    let focused :=
      if truthy (get_prop (store w) ref "focus") then Returns (emit (DomFocus ref) w)
      else
        match findDOMNode ref with
        | JNull | JUndefined => Throws "TypeError"
        | node => Returns (emit (DomFocus node) w)
        end in
    match focused, options with
    | Throws e, _ => Throws e
    | Returns _, None => Throws "TypeError"
    | Returns w1, Some options =>
        if negb (strict_eq (prop_get options "DOMOnly") (JBool true)) then
          let '(r, w2) :=
            setCurrentFocus
              (mkFocus ref JUndefined (prop_get options "id") JUndefined
                       (prop_get options "context") JUndefined) w1 in
          Returns (Some r, w2)
        else Returns (None, w1)
    end
  else Returns (None, w).

(** The world after a call whose result is dropped. *)
Definition and_drop_result {A} (res : outcome (A * World)) : outcome World :=
  match res with
  | Returns (_, w) => Returns w
  | Throws e => Throws e
  end.

(** [x || collectionId] *)
Definition or_else (x collectionId : jsval) : jsval :=
  if truthy x then x else collectionId.

Definition focusById (collectionId itemIdOrOptions options : jsval) (w : World)
  : outcome World :=
  let itemIdOrOptions := or_NotProvided itemIdOrOptions in
  let options := or_NotProvided options in
  if strict_eq options NotProvided then
    let '(_itemId, _options) := focusById_args itemIdOrOptions w in
    let context := or_else (prop_get _options "context") collectionId in
    if truthy _itemId then
      and_drop_result
        (focus (get collectionId _itemId w)
               (Some (obj_assign [("id", _itemId); ("context", context)] _options)) w)
    else
      and_drop_result
        (focus (get collectionId JUndefined w)
               (Some (obj_assign [("context", context)] _options)) w)
  else
    match options with
    | JNull => Throws "TypeError"
    | _ =>
        let context := or_else (get_prop (store w) options "context") collectionId in
        and_drop_result
          (focus (get collectionId itemIdOrOptions w)
                 (Some (obj_assign (own_props (store w) options)
                          [("id", itemIdOrOptions); ("context", context)])) w)
    end.

(** [refCollection[key]]; on [null] and [undefined] the read throws. *)
Definition read_item (refCollection : jsval) (key : jsval) (w : World) : outcome jsval :=
  match refCollection with
  | JNull | JUndefined => Throws "TypeError"
  | _ => Returns (get_prop (store w) refCollection (to_key key))
  end.

(** [indexes ? indexes : Object.keys(refCollection)]; [Object.keys] throws
    on [null] and [undefined]. *)
Definition indexesToUse (refCollection : jsval) (o : NextOptions) (w : World)
  : outcome (list jsval) :=
  match o_indexes o, refCollection with
  | Some indexes, _ => Returns indexes
  | None, (JNull | JUndefined) => Throws "TypeError"
  | None, _ => Returns (Object_keys (store w) refCollection)
  end.

(** [this.focus(ref, { id, context }); return this.getCurrentFocus();] *)
Definition focus_and_report (ref id context : jsval) (w : World)
  : outcome (option FocusObject * World) :=
  match focus ref (Some [("id", id); ("context", context)]) w with
  | Throws e => Throws e
  | Returns (_, w1) => Returns (Some (getCurrentFocus w1), w1)
  end.

Definition focusNext (refCollection : jsval) (o : NextOptions) (w : World)
  : outcome (option FocusObject * World) :=
  let direction :=
    match o_direction o with JUndefined => FocusDirection.RIGHT | d => d end in
  let context := o_context o in
  let collectionWidth := default 1 (o_collectionWidth o) in
  let yWrap := default false (o_yWrap o) in
  let xWrap := default false (o_xWrap o) in
  let id := f_id (getCurrentFocus w) in
  match indexesToUse refCollection o w with
  | Throws e => Throws e
  | Returns indexesToUse =>
      let refIdsIndex := indexOf indexesToUse id in
      if refIdsIndex =? -1 then
        let firstRefId := array_get indexesToUse 0 in
        match read_item refCollection firstRefId w with
        | Throws e => Throws e
        | Returns ref => focus_and_report ref firstRefId context w
        end
      else
        let nextRefId :=
          nextRefId indexesToUse refIdsIndex direction collectionWidth yWrap xWrap in
        match read_item refCollection nextRefId w with
        | Throws e => Throws e
        | Returns nextRef =>
            if truthy nextRef then focus_and_report nextRef nextRefId context w
            else Returns (None, w)
        end
  end.

(** [focusNext(this.get(collectionId), { context: collectionId, ...options })] *)
Definition focusNextById (collectionId : jsval) (o : NextOptions) (w : World)
  : outcome (option FocusObject * World) :=
  let refCollection := get collectionId JUndefined w in
  focusNext refCollection
    (mkNextOptions (o_direction o) (o_indexes o) (o_collectionId o)
       (match o_context o with JUndefined => collectionId | c => c end)
       (o_collectionWidth o) (o_yWrap o) (o_xWrap o)) w.

(** The ref that [scrollToById] looks up is not used. *)
Definition scrollToById (collectionId itemId : jsval) (w : World) : outcome World :=
  let itemId := or_NotProvided itemId in
  let ref := get collectionId itemId w in
  static_scrollTo (f_ref (getCurrentFocus w)) w.

Definition scrollToFocused (w : World) : outcome World :=
  static_scrollTo (f_ref (getCurrentFocus w)) w.

End RefManager.

End Legacy.

(** ** Identifiers and plain objects

    The registry object and the collections that [set] creates are plain
    objects: besides the properties written to them, which the store
    holds, they inherit the members of [Object.prototype], and a write
    under "__proto__" replaces that prototype. The properties of the
    registry proved below are stated for identifiers that are not such
    members, on a registry into which nothing was written under
    "__proto__". *)

(** The property names of [Object.prototype]. *)
Definition Object_prototype_keys : list string :=
  ["__defineGetter__"; "__defineSetter__"; "__lookupGetter__"; "__lookupSetter__";
   "__proto__"; "constructor"; "hasOwnProperty"; "isPrototypeOf";
   "propertyIsEnumerable"; "toLocaleString"; "toString"; "valueOf"].

(** An identifier is a string or an integer. The strings taken here are not
    names of [Object.prototype] members and not the [NotProvided] mark; the
    integers are the safe ones, between -2^53 and 2^53, whose property key
    is their decimal form. *)
Definition is_identifier (v : jsval) : bool :=
  match v with
  | JStr s => negb (existsb (String.eqb s) ("NOT_PROVIDED" :: Object_prototype_keys))
  | JNum n => (-9007199254740992 <? n) && (n <? 9007199254740992)
  | _ => false
  end.

(** Nothing was written to the registry under "__proto__": its prototype is
    [Object.prototype]. *)
Definition registry_is_plain (w : World) : Prop :=
  prop_lookup (_refs (this w)) "__proto__" = None.

(** ** Sample hosts and worlds *)

(** A host in which [ReactDOM.findDOMNode] finds no element. *)
Definition no_dom : jsval -> jsval := fun _ => JNull.

(** A fresh instance with one listener, the function at address 0. *)
Definition world_one_listener : World :=
  mkWorld {[ 0%nat := [] ]} (mkRefManager [] empty_object [JObj 0%nat]) [].

(** A grid of six elements in two rows of three, registered as the
    collection "grid" under the item ids "a" to "f". The object at address 0
    is the [focus] method of the elements; the focus is on "e", at index 4. *)
Definition world_grid : World :=
  mkWorld
    (list_to_map
       [(0%nat, []);
        (1%nat, [("focus", JObj 0%nat)]); (2%nat, [("focus", JObj 0%nat)]);
        (3%nat, [("focus", JObj 0%nat)]); (4%nat, [("focus", JObj 0%nat)]);
        (5%nat, [("focus", JObj 0%nat)]); (6%nat, [("focus", JObj 0%nat)]);
        (7%nat, [("a", JObj 1%nat); ("b", JObj 2%nat); ("c", JObj 3%nat);
                 ("d", JObj 4%nat); ("e", JObj 5%nat); ("f", JObj 6%nat)])])
    (mkRefManager [("grid", JObj 7%nat)]
       (mkFocus (JObj 5%nat) (JObj 5%nat) (JStr "e") (JStr "grid") JUndefined (JBool true))
       [])
    [].

(** [{ direction: FocusDirection.DOWN, collectionId, collectionWidth: 3, yWrap }] *)
Definition down_by_3 (collectionId : jsval) (yWrap : bool) : NextOptions :=
  mkNextOptions FocusDirection.DOWN None collectionId JUndefined (Some 3) (Some yWrap) None.

(** Two elements, at addresses 0 and 1, and a fresh instance. *)
Definition world_two_elements : World :=
  mkWorld (list_to_map [(0%nat, []); (1%nat, [])]) constructor [].

(** A fresh instance with three listeners, the functions at addresses 0,
    1 and 2, added in this order. *)
Definition world_three_listeners : World :=
  mkWorld (list_to_map [(0%nat, []); (1%nat, []); (2%nat, [])])
          (mkRefManager [] empty_object [JObj 0%nat; JObj 1%nat; JObj 2%nat]) [].

(** A mounted DOM element at address 2, with its [scrollIntoView] method
    (address 0) and its parent node (address 1), registered as item "a" of
    the collection "items" (address 3). *)
Definition world_scroll : World :=
  mkWorld
    (list_to_map
       [(0%nat, []); (1%nat, []);
        (2%nat, [("scrollIntoView", JObj 0%nat); ("parentNode", JObj 1%nat)]);
        (3%nat, [("a", JObj 2%nat)])])
    (mkRefManager [("items", JObj 3%nat)] empty_object [])
    [].

(** [{ direction, collectionId }], over rows of [collectionWidth] (when
    given) and with both wrap flags set to [wrap]. *)
Definition towards (direction collectionId : jsval) (collectionWidth : option Z)
    (wrap : bool) : NextOptions :=
  mkNextOptions direction None collectionId JUndefined collectionWidth (Some wrap) (Some wrap).

(** The instance of the README after [this.refManager.set('footer')], a
    call that gives no ref: the entry under "footer" is the string
    [NotProvided]. The element at address 0 is not registered. *)
Definition world_footer : World :=
  mkWorld {[ 0%nat := [] ]} (mkRefManager [("footer", NotProvided)] empty_object []) [].

(** ** Properties and arrays *)

Lemma prop_get_set_eq ps k v : prop_get (prop_set ps k v) k = v.
Proof.
  unfold prop_get. induction ps as [|[k' v'] ps IH]; simpl.
  - by rewrite String.eqb_refl.
  - destruct (String.eqb k' k) eqn:E; simpl; rewrite E; [done | exact IH].
Qed.

Lemma prop_get_set_ne ps k k' v :
  k <> k' -> prop_get (prop_set ps k v) k' = prop_get ps k'.
Proof.
  intros Hne. unfold prop_get. induction ps as [|[k0 v0] ps IH]; simpl.
  - by apply String.eqb_neq in Hne as ->.
  - destruct (String.eqb k0 k) eqn:E; simpl.
    + apply String.eqb_eq in E as ->. by apply String.eqb_neq in Hne as ->.
    + destruct (String.eqb k0 k'); [done | exact IH].
Qed.

Lemma prop_lookup_set_eq ps k v : prop_lookup (prop_set ps k v) k = Some v.
Proof.
  induction ps as [|[k' v'] ps IH]; simpl.
  - by rewrite String.eqb_refl.
  - destruct (String.eqb k' k) eqn:E; simpl; rewrite E; [done | exact IH].
Qed.

Lemma or_NotProvided_idemp v : or_NotProvided (or_NotProvided v) = or_NotProvided v.
Proof. by destruct v. Qed.

Lemma or_NotProvided_defined v : v <> JUndefined -> or_NotProvided v = v.
Proof. by destruct v. Qed.

Lemma strict_eq_true v1 v2 : strict_eq v1 v2 = true <-> v1 = v2.
Proof. unfold strict_eq. apply bool_decide_eq_true. Qed.

Lemma strict_eq_false v1 v2 : strict_eq v1 v2 = false <-> v1 <> v2.
Proof. unfold strict_eq. apply bool_decide_eq_false. Qed.

Lemma strict_eq_refl v : strict_eq v v = true.
Proof. by apply strict_eq_true. Qed.

Lemma array_get_lookup (arr : list jsval) (i : nat) x :
  arr !! i = Some x -> array_get arr (Z.of_nat i) = x.
Proof.
  intros H. unfold array_get.
  destruct (Z.ltb_spec (Z.of_nat i) 0) as [?|_]; [lia|].
  by rewrite Nat2Z.id, H.
Qed.

Lemma indexOf_from_first {A} `{EqDecision A} (arr : list A) x (i : nat) base :
  arr !! i = Some x -> x ∉ take i arr -> indexOf_from arr x base = base + Z.of_nat i.
Proof.
  revert i base. induction arr as [|y arr IH]; intros i base Hi Hfirst; [done|].
  simpl. destruct i as [|i]; simpl in *.
  - injection Hi as ->. rewrite decide_True by done. lia.
  - rewrite decide_False.
    + rewrite (IH i (base + 1)); [lia | done |].
      intros Hin. apply Hfirst. by right.
    + intros ->. apply Hfirst. by left.
Qed.

Lemma indexOf_first {A} `{EqDecision A} (arr : list A) x (i : nat) :
  arr !! i = Some x -> x ∉ take i arr -> indexOf arr x = Z.of_nat i.
Proof. intros. unfold indexOf. by rewrite (indexOf_from_first arr x i 0). Qed.

Lemma indexOf_from_absent {A} `{EqDecision A} (arr : list A) x base :
  x ∉ arr -> indexOf_from arr x base = -1.
Proof.
  revert base. induction arr as [|y arr IH]; intros base Hx; [done|].
  simpl. rewrite decide_False.
  - apply IH. intros Hin. apply Hx. by right.
  - intros ->. apply Hx. by left.
Qed.

Lemma indexOf_from_found {A} `{EqDecision A} (arr : list A) x base :
  x ∈ arr ->
  exists i : nat, indexOf_from arr x base = base + Z.of_nat i
                  /\ arr !! i = Some x /\ x ∉ take i arr.
Proof.
  revert base. induction arr as [|y arr IH]; intros base Hx.
  - by apply elem_of_nil in Hx.
  - simpl. destruct (decide (y = x)) as [->|Hne].
    + exists 0%nat. split; [lia|]. split; [done|]. simpl. apply not_elem_of_nil.
    + apply elem_of_cons in Hx as [->|Hx]; [done|].
      destruct (IH (base + 1) Hx) as (i & Hi & Hl & Hf).
      exists (S i). split; [lia|]. split; [done|]. simpl.
      intros [->|Hin]%elem_of_cons; [done | by apply Hf].
Qed.

(** ** What an operation leaves alone *)

Lemma fold_emit {A} (f : A -> event) (ls : list A) (w : World) :
  fold_left (fun acc l => emit (f l) acc) ls w
  = mkWorld (store w) (this w) (trace w ++ (f <$> ls)).
Proof.
  revert w. induction ls as [|l ls IH]; intros w; simpl.
  - rewrite app_nil_r. by destruct w.
  - rewrite IH. simpl. by rewrite <- app_assoc.
Qed.

Lemma setCurrentFocus_spec focused w :
  setCurrentFocus focused w
  = (focused,
     mkWorld (store w)
             (mkRefManager (_refs (this w)) focused (_focusListeners (this w)))
             (trace w ++ ((fun l => ListenerCall l (_focused (this w)) focused)
                            <$> _focusListeners (this w)))).
Proof. unfold setCurrentFocus. simpl. by rewrite fold_emit. Qed.

Lemma focus_absent findDOMNode ref options w :
  truthy ref = false ->
  focus findDOMNode ref options w
  = (mkFocus JNull JNull (prop_get options "id") (prop_get options "collectionId")
             (prop_get options "context") (JBool false), w).
Proof. intros H. unfold focus. by rewrite H. Qed.

Lemma focus_id findDOMNode ref options w :
  f_id (focus findDOMNode ref options w).1 = prop_get options "id".
Proof.
  unfold focus. destruct (truthy ref); [|done].
  destruct (static_focus findDOMNode ref w) as [d w1].
  by rewrite setCurrentFocus_spec.
Qed.

Lemma focus_collectionId findDOMNode ref options w :
  f_collectionId (focus findDOMNode ref options w).1 = prop_get options "collectionId".
Proof.
  unfold focus. destruct (truthy ref); [|done].
  destruct (static_focus findDOMNode ref w) as [d w1].
  by rewrite setCurrentFocus_spec.
Qed.

(** ** [focus] and [focusById] on a missing ref *)

Lemma get_or_NotProvided collectionId itemId w :
  get collectionId (or_NotProvided itemId) w = get collectionId itemId w.
Proof. unfold get. by rewrite or_NotProvided_idemp. Qed.

(** C2: [focus] called with an absent ref ([null] or [undefined]) returns
    the record with [applied = false], [ref = null] and [DOMRef = null]
    that carries the [id], [collectionId] and [context] it was given, and
    the current focus, the registry (with the store behind it), the
    listeners and the trace are what they were. *)
Theorem focus_absent_ref_unapplied findDOMNode ref id collectionId context w :
  ref = JNull \/ ref = JUndefined ->
  let options := [("id", id); ("collectionId", collectionId); ("context", context)] in
  (focus findDOMNode ref options w).1
    = mkFocus JNull JNull id collectionId context (JBool false)
  /\ _focused (this (focus findDOMNode ref options w).2) = _focused (this w)
  /\ _refs (this (focus findDOMNode ref options w).2) = _refs (this w)
  /\ store (focus findDOMNode ref options w).2 = store w
  /\ _focusListeners (this (focus findDOMNode ref options w).2) = _focusListeners (this w)
  /\ trace (focus findDOMNode ref options w).2 = trace w.
Proof.
  intros Href options.
  assert (truthy ref = false) as Hf by (by destruct Href as [-> | ->]).
  rewrite (focus_absent findDOMNode ref options w Hf). simpl. done.
Qed.

Lemma focus_absent_ref_unapplied_witness :
  (JNull = JNull \/ JNull = JUndefined)
  /\ (focus no_dom JNull
        [("id", JStr "a"); ("collectionId", JStr "items"); ("context", JNum 7)]
        world_one_listener).1
     = mkFocus JNull JNull (JStr "a") (JStr "items") (JNum 7) (JBool false).
Proof.
  split; [by left|].
  apply (focus_absent_ref_unapplied no_dom JNull (JStr "a") (JStr "items") (JNum 7)
           world_one_listener).
  by left.
Defined.

(** C1, as the code has it: [focusById] on an identifier, or on a
    collection id with a non-zero, non-empty item id, that has no entry in
    the registry (an options hash may follow, or take the place of the item
    id) returns a record with [ref = null] and [applied = false], and no
    listener is called: the world, its trace included, is what it was. *)
Theorem focusById_miss_calls_no_listener
    findDOMNode collectionId itemIdOrOptions options w :
  ((itemIdOrOptions = JUndefined
    \/ (typeof itemIdOrOptions <> "object" /\ truthy itemIdOrOptions = true))
   /\ get collectionId itemIdOrOptions w = JUndefined)
  \/ (typeof itemIdOrOptions = "object" /\ options = JUndefined
      /\ get collectionId JUndefined w = JUndefined) ->
  f_ref (focusById findDOMNode collectionId itemIdOrOptions options w).1 = JNull
  /\ f_applied (focusById findDOMNode collectionId itemIdOrOptions options w).1 = JBool false
  /\ (focusById findDOMNode collectionId itemIdOrOptions options w).2 = w
  /\ listener_calls (trace (focusById findDOMNode collectionId itemIdOrOptions options w).2)
     = listener_calls (trace w).
Proof.
  intros Hmiss.
  assert (exists opts, focusById findDOMNode collectionId itemIdOrOptions options w
                       = focus findDOMNode JUndefined opts w) as [opts ->].
  { unfold focusById.
    destruct Hmiss as [[Hid Hmiss] | (Hty & -> & Hmiss)].
    - destruct (strict_eq (or_NotProvided options) NotProvided).
      + unfold focusById_args.
        destruct Hid as [-> | [Hty Htr]]; simpl.
        * rewrite Hmiss. eauto.
        * rewrite or_NotProvided_defined by (by intros ->).
          destruct (strict_eq itemIdOrOptions NotProvided) eqn:Enp.
          -- apply strict_eq_true in Enp as ->. simpl.
             change (get collectionId JUndefined w) with (get collectionId NotProvided w).
             rewrite Hmiss. eauto.
          -- apply String.eqb_neq in Hty as ->. rewrite Htr, Hmiss. eauto.
      + rewrite get_or_NotProvided, Hmiss. eauto.
    - simpl. unfold focusById_args.
      rewrite or_NotProvided_defined by (by intros ->).
      destruct (strict_eq itemIdOrOptions NotProvided) eqn:Enp.
      + apply strict_eq_true in Enp as ->. discriminate Hty.
      + rewrite Hty. simpl. rewrite Hmiss. eauto. }
  rewrite focus_absent by done. done.
Qed.

Lemma focusById_miss_calls_no_listener_witness :
  (JStr "b" = JUndefined \/ (typeof (JStr "b") <> "object" /\ truthy (JStr "b") = true))
  /\ get (JStr "items") (JStr "b") world_one_listener = JUndefined
  /\ (focusById no_dom (JStr "items") (JStr "b") JUndefined world_one_listener).2
     = world_one_listener.
Proof.
  split; [right; split; [discriminate | reflexivity]|].
  split; [reflexivity|].
  apply (focusById_miss_calls_no_listener no_dom (JStr "items") (JStr "b") JUndefined
           world_one_listener).
  left. split; [|reflexivity].
  right; split; [discriminate | reflexivity].
Defined.

(** C1 as stated fails: with one listener registered, [focusById] on an
    identifier without an entry returns the failed record, and the listener
    is not called with it (nothing is called at all). *)
Lemma focusById_miss_listener_not_called :
  let w := world_one_listener in
  let r := (focusById no_dom (JStr "missing") JUndefined JUndefined w).1 in
  let w' := (focusById no_dom (JStr "missing") JUndefined JUndefined w).2 in
  _focusListeners (this w) = [JObj 0%nat]
  /\ get (JStr "missing") JUndefined w = JUndefined
  /\ f_ref r = JNull /\ f_applied r = JBool false
  /\ trace w' = []
  /\ ~ (forall listener, listener ∈ _focusListeners (this w) ->
          exists previous, ListenerCall listener previous r ∈ trace w').
Proof.
  cbv zeta. repeat split.
  intros H. destruct (H (JObj 0%nat)) as [previous Hin].
  - simpl. by left.
  - simpl in Hin. by apply elem_of_nil in Hin.
Qed.

(** With two arguments and the item id 0, the test [if (_itemId)] sends
    [focusById] to the entry stored under [collectionId] itself. *)
Lemma focusById_item_id_zero findDOMNode collectionId w :
  focusById findDOMNode collectionId (JNum 0) JUndefined w
  = focus findDOMNode (get collectionId JUndefined w) [("collectionId", collectionId)] w.
Proof. reflexivity. Qed.

(** ** Directional navigation *)

(** Without a ref collection [focusNext] selects nothing. *)
Lemma focusNext_without_collection findDOMNode refCollection o w :
  truthy refCollection = false ->
  focusNext findDOMNode refCollection o w
  = (mkFocus JNull JNull JUndefined (o_collectionId o) (o_context o) (JBool false), w).
Proof. intros H. unfold focusNext. by rewrite H. Qed.

(** The branch taken when the focus is elsewhere: the first candidate. *)
Lemma focusNext_reset findDOMNode refCollection o w :
  truthy refCollection = true ->
  f_collectionId (getCurrentFocus w) <> o_collectionId o
  \/ f_id (getCurrentFocus w) ∉ indexesToUse refCollection o w ->
  focusNext findDOMNode refCollection o w
  = focus_item findDOMNode refCollection o w (array_get (indexesToUse refCollection o w) 0).
Proof.
  intros Hrc Hreset. unfold focusNext, focus_item. rewrite Hrc. simpl.
  destruct Hreset as [Hc | Hid].
  - apply strict_eq_false in Hc as ->. done.
  - unfold indexOf. rewrite (indexOf_from_absent _ _ 0 Hid).
    by rewrite orb_true_r.
Qed.

(** The branch taken when the focus is on candidate [i]: [nextRefId]. *)
Lemma focusNext_move findDOMNode refCollection o w (i : nat) :
  truthy refCollection = true ->
  f_collectionId (getCurrentFocus w) = o_collectionId o ->
  indexesToUse refCollection o w !! i = Some (f_id (getCurrentFocus w)) ->
  f_id (getCurrentFocus w) ∉ take i (indexesToUse refCollection o w) ->
  focusNext findDOMNode refCollection o w
  = focus_item findDOMNode refCollection o w
      (nextRefId (indexesToUse refCollection o w) (Z.of_nat i)
         (match o_direction o with JUndefined => FocusDirection.RIGHT | d => d end)
         (default 1 (o_collectionWidth o))
         (default false (o_yWrap o)) (default false (o_xWrap o))).
Proof.
  intros Hrc Hc Hi Hfirst. unfold focusNext, focus_item. rewrite Hrc. simpl.
  rewrite (indexOf_first _ _ i Hi Hfirst).
  rewrite <- Hc, strict_eq_refl. simpl.
  destruct (Z.eqb_spec (Z.of_nat i) (-1)) as [?|_]; [lia|]. by rewrite Hc.
Qed.

(** C4: with the focus in the collection and its id at index [i] of the
    [n] candidates, DOWN with a row width [cw], 1 <= cw <= n, selects the
    identifier at index [i + cw] when that is below [n], and otherwise,
    when [yWrap] is false, the identifier at index [n - cw]. *)
Theorem focusNext_down_moves_one_row findDOMNode refCollection o w
    (i cw : nat) (next : jsval) :
  truthy refCollection = true ->
  o_direction o = FocusDirection.DOWN ->
  default 1 (o_collectionWidth o) = Z.of_nat cw ->
  (1 <= cw <= length (indexesToUse refCollection o w))%nat ->
  f_collectionId (getCurrentFocus w) = o_collectionId o ->
  indexesToUse refCollection o w !! i = Some (f_id (getCurrentFocus w)) ->
  f_id (getCurrentFocus w) ∉ take i (indexesToUse refCollection o w) ->
  ((i + cw < length (indexesToUse refCollection o w))%nat
   /\ indexesToUse refCollection o w !! (i + cw)%nat = Some next)
  \/ ((length (indexesToUse refCollection o w) <= i + cw)%nat
      /\ default false (o_yWrap o) = false
      /\ indexesToUse refCollection o w
           !! (length (indexesToUse refCollection o w) - cw)%nat = Some next) ->
  focusNext findDOMNode refCollection o w = focus_item findDOMNode refCollection o w next
  /\ f_id (focusNext findDOMNode refCollection o w).1 = next.
Proof.
  intros Hrc Hdir Hcw Hrange Hc Hi Hfirst Hnext.
  assert (focusNext findDOMNode refCollection o w
          = focus_item findDOMNode refCollection o w next) as ->.
  { rewrite (focusNext_move findDOMNode refCollection o w i Hrc Hc Hi Hfirst), Hdir, Hcw.
    change (match FocusDirection.DOWN with
            | JUndefined => FocusDirection.RIGHT
            | d => d
            end) with FocusDirection.DOWN.
    f_equal. unfold nextRefId.
    change (strict_eq FocusDirection.DOWN FocusDirection.LEFT) with false.
    change (strict_eq FocusDirection.DOWN FocusDirection.RIGHT) with false.
    change (strict_eq FocusDirection.DOWN FocusDirection.UP) with false.
    change (strict_eq FocusDirection.DOWN FocusDirection.DOWN) with true.
    cbv iota.
    destruct Hnext as [[Hlt Hn] | (Hge & Hwrap & Hn)].
    - destruct (Z.ltb_spec (Z.of_nat i + Z.of_nat cw)
                  (Z.of_nat (length (indexesToUse refCollection o w)))) as [_|?]; [|lia].
      rewrite <- Nat2Z.inj_add. by apply array_get_lookup.
    - destruct (Z.ltb_spec (Z.of_nat i + Z.of_nat cw)
                  (Z.of_nat (length (indexesToUse refCollection o w)))) as [?|_]; [lia|].
      rewrite Hwrap. rewrite <- Nat2Z.inj_sub by lia. by apply array_get_lookup. }
  split; [done|]. unfold focus_item. by rewrite focus_id.
Qed.

(** C5: over a non-empty sequence of candidates, when the current focus
    has another [collectionId] or an [id] that is not among the
    candidates, [focusNext] on a ref collection selects the first
    candidate and tries to focus its ref, whatever the direction, the row
    width and the wrap flags; the result is a focus object like any
    other. *)
Theorem focusNext_resets_to_first findDOMNode refCollection o w
    (first : jsval) (rest : list jsval) :
  truthy refCollection = true ->
  indexesToUse refCollection o w = first :: rest ->
  f_collectionId (getCurrentFocus w) <> o_collectionId o
  \/ f_id (getCurrentFocus w) ∉ indexesToUse refCollection o w ->
  focusNext findDOMNode refCollection o w = focus_item findDOMNode refCollection o w first
  /\ f_id (focusNext findDOMNode refCollection o w).1 = first
  /\ f_collectionId (focusNext findDOMNode refCollection o w).1 = o_collectionId o.
Proof.
  intros Hrc Hids Hreset.
  rewrite (focusNext_reset findDOMNode refCollection o w Hrc Hreset), Hids.
  change (array_get (first :: rest) 0) with first.
  split; [done|]. unfold focus_item. by rewrite focus_id, focus_collectionId.
Qed.

Lemma world_grid_candidates yWrap :
  indexesToUse (JObj 7%nat) (down_by_3 (JStr "grid") yWrap) world_grid
  = [JStr "a"; JStr "b"; JStr "c"; JStr "d"; JStr "e"; JStr "f"].
Proof. by vm_compute. Defined.

Lemma focusNext_down_moves_one_row_witness :
  f_id (getCurrentFocus world_grid) = JStr "e"
  /\ f_id (focusNext no_dom (JObj 7%nat) (down_by_3 (JStr "grid") false) world_grid).1
     = JStr "d".
Proof.
  split; [reflexivity|].
  apply (focusNext_down_moves_one_row no_dom (JObj 7%nat) (down_by_3 (JStr "grid") false)
           world_grid 4 3 (JStr "d")).
  - reflexivity.
  - reflexivity.
  - reflexivity.
  - rewrite world_grid_candidates. simpl. lia.
  - reflexivity.
  - rewrite world_grid_candidates. reflexivity.
  - rewrite world_grid_candidates. simpl.
    intros H. repeat (apply elem_of_cons in H as [H|H]; [discriminate H|]).
    by apply elem_of_nil in H.
  - right. rewrite world_grid_candidates. simpl. split; [lia|]. split; reflexivity.
Defined.

Lemma focusNext_resets_to_first_witness :
  f_id (focusNext no_dom (JObj 7%nat) (down_by_3 (JStr "other") true) world_grid).1
  = JStr "a".
Proof.
  apply (focusNext_resets_to_first no_dom (JObj 7%nat) (down_by_3 (JStr "other") true)
           world_grid (JStr "a")
           [JStr "b"; JStr "c"; JStr "d"; JStr "e"; JStr "f"]).
  - reflexivity.
  - by vm_compute.
  - left. discriminate.
Defined.

(** DOWN past the last row with [yWrap] set: the first candidate is chosen,
    whatever the column of the current one. *)
Lemma focusNext_down_wraps_to_first findDOMNode refCollection o w (i : nat) :
  truthy refCollection = true ->
  o_direction o = FocusDirection.DOWN ->
  o_yWrap o = Some true ->
  f_collectionId (getCurrentFocus w) = o_collectionId o ->
  indexesToUse refCollection o w !! i = Some (f_id (getCurrentFocus w)) ->
  f_id (getCurrentFocus w) ∉ take i (indexesToUse refCollection o w) ->
  Z.of_nat (length (indexesToUse refCollection o w))
    <= Z.of_nat i + default 1 (o_collectionWidth o) ->
  f_id (focusNext findDOMNode refCollection o w).1
  = array_get (indexesToUse refCollection o w) 0.
Proof.
  intros Hrc Hdir Hwrap Hc Hi Hfirst Hover.
  rewrite (focusNext_move findDOMNode refCollection o w i Hrc Hc Hi Hfirst).
  unfold focus_item. rewrite focus_id, Hdir, Hwrap. simpl. unfold nextRefId.
  change (strict_eq FocusDirection.DOWN FocusDirection.LEFT) with false.
  change (strict_eq FocusDirection.DOWN FocusDirection.RIGHT) with false.
  change (strict_eq FocusDirection.DOWN FocusDirection.UP) with false.
  change (strict_eq FocusDirection.DOWN FocusDirection.DOWN) with true.
  cbv iota.
  by destruct (Z.ltb_spec (Z.of_nat i + default 1 (o_collectionWidth o))
                 (Z.of_nat (length (indexesToUse refCollection o w)))) as [?|_]; [lia|].
Qed.

(** C3, on the code: six candidates in rows of three, the focus in the
    collection at index 4 ("e"), DOWN with [yWrap] set. The code selects the
    identifier at index 0 ("a"), not the one at index 1 ("b") that sits in
    the top row of the same column. *)
Theorem focusNext_down_wrap_from_index_4 :
  indexesToUse (JObj 7%nat) (down_by_3 (JStr "grid") true) world_grid
    = [JStr "a"; JStr "b"; JStr "c"; JStr "d"; JStr "e"; JStr "f"]
  /\ f_collectionId (getCurrentFocus world_grid) = JStr "grid"
  /\ indexOf [JStr "a"; JStr "b"; JStr "c"; JStr "d"; JStr "e"; JStr "f"]
             (f_id (getCurrentFocus world_grid)) = 4
  /\ f_id (focusNextById no_dom (JStr "grid") (down_by_3 JUndefined true) world_grid).1
     = JStr "a"
  /\ f_id (focusNextById no_dom (JStr "grid") (down_by_3 JUndefined true) world_grid).1
     <> JStr "b".
Proof. split; [by vm_compute|]. repeat split. by vm_compute. Qed.

(** ** The registry *)

Lemma set_singular k t w :
  set k t JUndefined w
  = Returns (set_refs w (prop_set (_refs (this w)) (to_key k) (or_NotProvided t))).
Proof. done. Qed.

Lemma get_singular k w :
  k <> JUndefined -> get k JUndefined w = prop_get (_refs (this w)) (to_key k).
Proof. intros Hk. unfold get. by rewrite (or_NotProvided_defined k Hk). Qed.

(** An item stored under a key that holds an object goes into that very
    object. *)
Lemma set_item_on_object k i t l w :
  t <> JUndefined -> t <> NotProvided ->
  prop_get (_refs (this w)) (to_key k) = JObj l ->
  set k i t w
  = Returns (with_store w
      (<[l := prop_set (own_props (store w) (JObj l)) (to_key (or_NotProvided i)) t]>
         (store w))).
Proof.
  intros Ht Hnp Hl. unfold set.
  rewrite (or_NotProvided_defined t Ht).
  apply strict_eq_false in Hnp as ->.
  rewrite Hl. simpl. by rewrite Hl.
Qed.

Lemma is_identifier_defined v :
  is_identifier v = true -> v <> JUndefined /\ v <> NotProvided.
Proof. intros H. split; intros ->; discriminate H. Qed.

(** C6, as the code has it. Under an identifier [k] of a plain registry: a
    singular registration replaces whatever was registered before, a
    collection included, and [get(k)] then returns the new target. An item
    registration made after a singular registration of an object does not
    replace it: when it returns, [get(k)] still returns the singular
    target. *)
Theorem set_singular_replaces_item_does_not k w :
  is_identifier k = true ->
  registry_is_plain w ->
  (forall i t1 t2 w1,
      set k i t1 w = Returns w1 -> t2 <> JUndefined ->
      exists w2, set k t2 JUndefined w1 = Returns w2
                 /\ get k JUndefined w2 = t2
                 /\ store w2 = store w1)
  /\ (forall l i t2 w1 w2,
        t2 <> JUndefined -> t2 <> NotProvided ->
        set k (JObj l) JUndefined w = Returns w1 ->
        set k i t2 w1 = Returns w2 ->
        get k JUndefined w2 = JObj l).
Proof.
  intros Hid _. destruct (is_identifier_defined k Hid) as [Hk _]. split.
  - intros i t1 t2 w1 _ Ht2. eexists. split; [apply set_singular|].
    rewrite (get_singular _ _ Hk). simpl.
    by rewrite prop_get_set_eq, (or_NotProvided_defined t2 Ht2).
  - intros l i t2 w1 w2 Ht2 Htnp Hfirst Hsecond.
    rewrite set_singular in Hfirst. injection Hfirst as <-.
    rewrite (set_item_on_object k i t2 l) in Hsecond;
      [| done | done | simpl; apply prop_get_set_eq].
    injection Hsecond as <-.
    rewrite (get_singular _ _ Hk). simpl. apply prop_get_set_eq.
Qed.

Lemma set_singular_replaces_item_does_not_witness :
  is_identifier (JStr "nav") = true
  /\ registry_is_plain world_two_elements
  /\ exists w1 w2,
       set (JStr "nav") (JObj 0%nat) JUndefined world_two_elements = Returns w1
       /\ set (JStr "nav") (JNum 1) (JObj 1%nat) w1 = Returns w2
       /\ get (JStr "nav") JUndefined w2 = JObj 0%nat.
Proof.
  split; [reflexivity|]. split; [reflexivity|].
  eexists. eexists. split; [reflexivity|]. split; [reflexivity|].
  eapply (proj2 (set_singular_replaces_item_does_not (JStr "nav") world_two_elements
                   eq_refl eq_refl)
            0%nat (JNum 1) (JObj 1%nat)); try discriminate; reflexivity.
Defined.

(** C6 as stated fails when the item registration comes second. The
    element at address 0 is registered under "nav", then the element at
    address 1 under ("nav", 1): [get("nav")] is still the first element,
    which now carries the item as its property "1". On a key that holds
    nothing, the same item registration makes a collection of its own. *)
Lemma set_item_after_singular_is_merged :
  exists w1 w2 w3,
    set (JStr "nav") (JObj 0%nat) JUndefined world_two_elements = Returns w1
    /\ set (JStr "nav") (JNum 1) (JObj 1%nat) w1 = Returns w2
    /\ get (JStr "nav") JUndefined w2 = JObj 0%nat
    /\ own_props (store w2) (JObj 0%nat) = [("1", JObj 1%nat)]
    /\ set (JStr "nav") (JNum 1) (JObj 1%nat) world_two_elements = Returns w3
    /\ get (JStr "nav") JUndefined w3 = JObj 2%nat
    /\ get (JStr "nav") JUndefined w2 <> get (JStr "nav") JUndefined w3.
Proof.
  eexists. eexists. eexists.
  split; [reflexivity|]. split; [by vm_compute|]. split; [by vm_compute|].
  split; [by vm_compute|]. split; [by vm_compute|]. split; [by vm_compute|].
  by vm_compute.
Qed.

(** ** Listeners are called by [setCurrentFocus] only *)

Lemma instance_untouched_refl w : instance_untouched w w.
Proof. by repeat split. Qed.

Lemma listener_calls_emit e w :
  is_listener_call e = false ->
  listener_calls (trace (emit e w)) = listener_calls (trace w).
Proof.
  intros He. unfold listener_calls. simpl.
  rewrite List.filter_app. simpl. rewrite He. apply app_nil_r.
Qed.

Lemma static_focus_untouched findDOMNode ref w :
  instance_untouched w (static_focus findDOMNode ref w).2.
Proof.
  unfold static_focus.
  repeat (case_match; try apply instance_untouched_refl);
    by (repeat split; simpl; try apply (listener_calls_emit (DomFocus _))).
Qed.

Lemma static_scrollTo_untouched findDOMNode ref options w :
  instance_untouched w (static_scrollTo findDOMNode ref options w).2.
Proof.
  unfold static_scrollTo.
  repeat (case_match; try apply instance_untouched_refl);
    by (repeat split; simpl; try apply (listener_calls_emit (DomScrollIntoView _ _))).
Qed.

Lemma scrollToById_untouched findDOMNode collectionId itemIdOrOptions options w :
  instance_untouched w (scrollToById findDOMNode collectionId itemIdOrOptions options w).2.
Proof.
  unfold scrollToById.
  destruct (scrollToById_args _ _) as [_itemId _options].
  destruct (truthy _); [|apply instance_untouched_refl].
  pose proof (static_scrollTo_untouched findDOMNode
                (get_prop (store w) (get collectionId _itemId w) "DOMRef") _options w) as H.
  by destruct (static_scrollTo _ _ _ _) as [el w1].
Qed.

Lemma scrollToFocused_untouched findDOMNode options w :
  instance_untouched w (scrollToFocused findDOMNode options w).2.
Proof.
  unfold scrollToFocused.
  pose proof (static_scrollTo_untouched findDOMNode (f_DOMRef (getCurrentFocus w))
                (or_NotProvided options) w) as H.
  by destruct (static_scrollTo _ _ _ _) as [el w1].
Qed.

Lemma set_trace collectionId itemIdOrRef ref w w' :
  set collectionId itemIdOrRef ref w = Returns w' ->
  trace w' = trace w
  /\ _focused (this w') = _focused (this w)
  /\ _focusListeners (this w') = _focusListeners (this w).
Proof.
  unfold set. intros H.
  repeat (case_match; simplify_eq; simpl in * ); done.
Qed.

(** [focus] either changes nothing or ends in [setCurrentFocus], entered
    once the browser has been asked to focus the ref. *)
Lemma focus_through_setCurrentFocus findDOMNode ref options w :
  (focus findDOMNode ref options w).2 = w
  \/ exists r w1, (focus findDOMNode ref options w).2 = (setCurrentFocus r w1).2
                  /\ instance_untouched w w1.
Proof.
  unfold focus. destruct (truthy ref); [|by left]. right.
  pose proof (static_focus_untouched findDOMNode ref w) as H.
  destruct (static_focus findDOMNode ref w) as [DOMRef w1]. eauto.
Qed.

Lemma focusById_is_focus findDOMNode collectionId itemIdOrOptions options w :
  exists ref opts,
    focusById findDOMNode collectionId itemIdOrOptions options w
    = focus findDOMNode ref opts w.
Proof.
  unfold focusById. destruct (strict_eq _ _); [|eauto].
  destruct (focusById_args _ _) as [_itemId _options].
  destruct (truthy _itemId); eauto.
Qed.

Lemma focusNext_is_focus findDOMNode refCollection o w :
  (focusNext findDOMNode refCollection o w).2 = w
  \/ exists ref opts,
       focusNext findDOMNode refCollection o w = focus findDOMNode ref opts w.
Proof.
  unfold focusNext. destruct (negb (truthy refCollection)); [by left|]. right.
  destruct (_ || _); eauto.
Qed.

(** C7: [setCurrentFocus(r)] stores [r] as the current focus, calls every
    listener once per registration, in the order of registration and each
    with the previous record and [r], and returns [r]; and every operation
    of the class either calls no listener or ends in a [setCurrentFocus]
    that it enters with the instance as it found it. *)
Theorem setCurrentFocus_is_the_only_path_to_listeners :
  (forall r w,
      (setCurrentFocus r w).1 = r
      /\ _focused (this (setCurrentFocus r w).2) = r
      /\ trace (setCurrentFocus r w).2
         = trace w ++ ((fun listener => ListenerCall listener (_focused (this w)) r)
                         <$> _focusListeners (this w))
      /\ _refs (this (setCurrentFocus r w).2) = _refs (this w)
      /\ _focusListeners (this (setCurrentFocus r w).2) = _focusListeners (this w)
      /\ store (setCurrentFocus r w).2 = store w)
  /\ (forall findDOMNode c w w',
        run findDOMNode c w = Returns w' ->
        listener_calls (trace w') = listener_calls (trace w)
        \/ exists r w1, w' = (setCurrentFocus r w1).2 /\ instance_untouched w w1).
Proof.
  split.
  - intros r w. by rewrite setCurrentFocus_spec.
  - intros findDOMNode c w w' Hrun.
    assert (forall ref opts,
              listener_calls (trace (focus findDOMNode ref opts w).2)
                = listener_calls (trace w)
              \/ exists r w1, (focus findDOMNode ref opts w).2 = (setCurrentFocus r w1).2
                              /\ instance_untouched w w1)
      as Hfocus.
    { intros ref opts.
      destruct (focus_through_setCurrentFocus findDOMNode ref opts w)
        as [-> | (r & w1 & -> & Hw1)]; [by left | right; eauto]. }
    destruct c; simpl in Hrun; try (injection Hrun as <-).
    + left. by apply set_trace in Hrun as [-> _].
    + by left.
    + right. exists focused, w. split; [done | apply instance_untouched_refl].
    + by left.
    + by left.
    + apply Hfocus.
    + destruct (focusById_is_focus findDOMNode collectionId itemIdOrOptions options w)
        as (ref & opts & ->). apply Hfocus.
    + unfold focusNextById.
      destruct (focusNext_is_focus findDOMNode (get collectionId JUndefined w)
                  (mkNextOptions (o_direction o) (o_indexes o) collectionId (o_context o)
                     (o_collectionWidth o) (o_yWrap o) (o_xWrap o)) w)
        as [-> | (ref & opts & ->)]; [by left | apply Hfocus].
    + destruct (focusNext_is_focus findDOMNode refCollection o w)
        as [-> | (ref & opts & ->)]; [by left | apply Hfocus].
    + left. apply scrollToById_untouched.
    + left. apply scrollToFocused_untouched.
    + by left.
    + left. unfold removeFocusChangeListener.
      destruct (negb _); [|done].
      destruct (splice _ 0 _) as [hd rest].
      by destruct (splice rest _ _) as [tl rest'].
    + left. apply static_focus_untouched.
    + left. apply static_scrollTo_untouched.
    + by left.
Qed.

Lemma setCurrentFocus_is_the_only_path_to_listeners_witness :
  run no_dom (Call_focus (JObj 0%nat) []) world_one_listener
    = Returns (focus no_dom (JObj 0%nat) [] world_one_listener).2
  /\ trace (focus no_dom (JObj 0%nat) [] world_one_listener).2
     = [ListenerCall (JObj 0%nat) empty_object
          (mkFocus (JObj 0%nat) JNull JUndefined JUndefined JUndefined (JBool false))]
  /\ (listener_calls (trace (focus no_dom (JObj 0%nat) [] world_one_listener).2)
        = listener_calls (trace world_one_listener)
      \/ exists r w1,
           (focus no_dom (JObj 0%nat) [] world_one_listener).2 = (setCurrentFocus r w1).2
           /\ instance_untouched world_one_listener w1).
Proof.
  split; [reflexivity|]. split; [reflexivity|].
  apply (proj2 setCurrentFocus_is_the_only_path_to_listeners no_dom
           (Call_focus (JObj 0%nat) []) world_one_listener).
  reflexivity.
Defined.

(** ** Removing a listener *)

Lemma splice_head {A} (arr : list A) (i : nat) :
  (i <= length arr)%nat ->
  splice arr 0 (Some (Z.of_nat i)) = (take i arr, drop i arr).
Proof.
  intros Hi. unfold splice. simpl.
  rewrite Z.min_l by lia. simpl.
  rewrite Z.max_l by lia. rewrite Z.min_l by lia.
  by rewrite Nat2Z.id.
Qed.

Lemma splice_tail {A} (arr : list A) (s : nat) :
  splice arr (Z.of_nat s) None = (drop s arr, take s arr).
Proof.
  unfold splice.
  destruct (Z.ltb_spec (Z.of_nat s) 0) as [?|_]; [lia|].
  destruct (decide (s <= length arr)%nat) as [Hs|Hs].
  - rewrite Z.min_l by lia. rewrite Nat2Z.id.
    replace (Z.to_nat (Z.of_nat (length arr) - Z.of_nat s)) with (length arr - s)%nat by lia.
    f_equal.
    + apply take_ge. rewrite length_drop. lia.
    + rewrite drop_ge by lia. apply app_nil_r.
  - rewrite Z.min_r by lia. rewrite Nat2Z.id, Z.sub_diag.
    change (Z.to_nat 0) with 0%nat.
    rewrite Nat.add_0_r, take_drop, take_0.
    rewrite (drop_ge arr s) by lia. by rewrite (take_ge arr s) by lia.
Qed.

(** What the two [splice] calls leave: the listeners before the one that is
    removed, and those from index [2 * i + 1] on. *)
Lemma removeFocusChangeListener_spec listener w (i : nat) :
  _focusListeners (this w) !! i = Some listener ->
  listener ∉ take i (_focusListeners (this w)) ->
  _focusListeners (this (removeFocusChangeListener listener w))
  = take i (_focusListeners (this w)) ++ drop (2 * i + 1) (_focusListeners (this w)).
Proof.
  intros Hi Hfirst. unfold removeFocusChangeListener.
  rewrite (indexOf_first _ _ i Hi Hfirst).
  destruct (Z.eqb_spec (Z.of_nat i) (-1)) as [?|_]; [lia|].
  change (negb false) with true. cbv iota.
  rewrite splice_head by (apply lookup_lt_Some in Hi; lia).
  replace (Z.of_nat i + 1) with (Z.of_nat (S i)) by lia.
  rewrite splice_tail. simpl. rewrite drop_drop.
  do 2 f_equal. lia.
Qed.

Lemma removeFocusChangeListener_unregistered listener w :
  listener ∉ _focusListeners (this w) ->
  removeFocusChangeListener listener w = w.
Proof.
  intros H. unfold removeFocusChangeListener, indexOf.
  by rewrite (indexOf_from_absent _ _ 0 H).
Qed.

(** C8, on the code: with the listeners at addresses 0, 1 and 2 registered
    in this order, removing the second one leaves the first one only; the
    third one is gone with it. *)
Theorem removeFocusChangeListener_loses_later_listener :
  _focusListeners (this world_three_listeners) = [JObj 0%nat; JObj 1%nat; JObj 2%nat]
  /\ _focusListeners (this (removeFocusChangeListener (JObj 1%nat) world_three_listeners))
     = [JObj 0%nat]
  /\ JObj 2%nat
       ∉ _focusListeners (this (removeFocusChangeListener (JObj 1%nat) world_three_listeners)).
Proof.
  split; [reflexivity|]. split; [reflexivity|].
  change (JObj 2%nat ∉ [JObj 0%nat]).
  intros [H | H]%elem_of_cons; [discriminate H | by apply elem_of_nil in H].
Qed.

(** ** Scrolling *)

(** The element that [scrollToById] hands to [scrollTo] is the property
    [DOMRef] of the stored ref: a ref that has none is not scrolled to. *)
Lemma scrollToById_without_DOMRef findDOMNode collectionId itemId w :
  truthy (get collectionId (scrollToById_args (or_NotProvided itemId) NotProvided).1 w)
    = true ->
  get_prop (store w)
    (get collectionId (scrollToById_args (or_NotProvided itemId) NotProvided).1 w)
    "DOMRef" = JUndefined ->
  (scrollToById findDOMNode collectionId itemId JUndefined w).2 = w
  /\ s_applied (scrollToById findDOMNode collectionId itemId JUndefined w).1 = JBool false.
Proof.
  intros Href Hprop. unfold scrollToById.
  change (or_NotProvided JUndefined) with NotProvided.
  destruct (scrollToById_args (or_NotProvided itemId) NotProvided) as [_itemId _options].
  simpl in *. rewrite Href, Hprop. done.
Qed.

(** C9, on the code: the mounted element registered under ("items", "a")
    has a [scrollIntoView] of its own, and [scrollTo] on it scrolls it into
    view; [scrollToById] finds it in the registry and asks nothing of the
    browser, returning [DOMRef = null] and [applied = false]. *)
Theorem scrollToById_does_not_scroll_registered_element :
  get (JStr "items") (JStr "a") world_scroll = JObj 2%nat
  /\ static_scrollTo no_dom (JObj 2%nat) JUndefined world_scroll
     = (JObj 2%nat, emit (DomScrollIntoView (JObj 2%nat) []) world_scroll)
  /\ scrollToById no_dom (JStr "items") (JStr "a") JUndefined world_scroll
     = (mkScroll (JStr "a") (JStr "items") (JObj 2%nat) JNull (JBool false), world_scroll).
Proof. split; [by vm_compute|]. split; by vm_compute. Qed.

(** C10: when [scrollToById] gets two arguments, the second one is taken
    as the item id only if it is a string. Any other second argument, an
    integer included, becomes the options for [scrollIntoView], and the ref
    is the entry stored under [collectionId] itself. *)
Theorem scrollToById_second_argument findDOMNode collectionId arg w :
  arg <> JUndefined ->
  ((scrollToById_args (or_NotProvided arg) NotProvided).1 = arg -> typeof arg = "string")
  /\ (typeof arg <> "string" ->
      scrollToById_args (or_NotProvided arg) NotProvided = (NotProvided, arg)
      /\ scrollToById findDOMNode collectionId arg JUndefined w
         = let ref := prop_get (_refs (this w)) (to_key (or_NotProvided collectionId)) in
           if truthy ref then
             let '(scrolledToRef, w1) :=
               static_scrollTo findDOMNode (get_prop (store w) ref "DOMRef") arg w in
             (mkScroll NotProvided collectionId ref scrolledToRef
                       (JBool (truthy scrolledToRef)), w1)
           else (mkScroll NotProvided collectionId JNull JNull (JBool false), w)).
Proof.
  intros Harg. rewrite (or_NotProvided_defined arg Harg).
  assert (typeof arg <> "string" ->
          scrollToById_args arg NotProvided = (NotProvided, arg)) as Hargs.
  { intros Hty. unfold scrollToById_args. simpl.
    destruct (strict_eq arg NotProvided) eqn:E.
    - apply strict_eq_true in E as ->. by destruct Hty.
    - by apply String.eqb_neq in Hty as ->. }
  split.
  - destruct (decide (typeof arg = "string")) as [|Hty]; [done|].
    rewrite (Hargs Hty). simpl. intros <-. by destruct Hty.
  - intros Hty. split; [by apply Hargs|].
    unfold scrollToById. rewrite (or_NotProvided_defined arg Harg).
    change (or_NotProvided JUndefined) with NotProvided.
    rewrite (Hargs Hty). done.
Qed.

Lemma scrollToById_second_argument_witness :
  JNum 2 <> JUndefined
  /\ typeof (JNum 2) <> "string"
  /\ scrollToById_args (or_NotProvided (JNum 2)) NotProvided = (NotProvided, JNum 2)
  /\ s_ref (scrollToById no_dom (JStr "items") (JNum 2) JUndefined world_scroll).1
     = get (JStr "items") JUndefined world_scroll.
Proof.
  assert (JNum 2 <> JUndefined) as Harg by discriminate.
  assert (typeof (JNum 2) <> "string") as Hty by discriminate.
  split; [exact Harg|]. split; [exact Hty|].
  destruct (proj2 (scrollToById_second_argument no_dom (JStr "items") (JNum 2)
                     world_scroll Harg) Hty) as [Hargs Hcall].
  split; [exact Hargs|]. rewrite Hcall. reflexivity.
Defined.

(** * Further properties of the class *)

(** ** The registry: round trips, frames and the one way to throw *)

(** Where an item registration that returns has put the ref: in the object
    found under the key, or in a collection made for it. *)
Lemma set_item_result c i t w w' :
  t <> JUndefined -> t <> NotProvided ->
  set c i t w = Returns w' ->
  exists l ps,
    prop_get (_refs (this w')) (to_key c) = JObj l
    /\ own_props (store w') (JObj l) = prop_set ps (to_key (or_NotProvided i)) t
    /\ ((prop_get (_refs (this w)) (to_key c) = JObj l
         /\ ps = own_props (store w) (JObj l)
         /\ _refs (this w') = _refs (this w))
        \/ (truthy (prop_get (_refs (this w)) (to_key c)) = false
            /\ ps = []
            /\ _refs (this w') = prop_set (_refs (this w)) (to_key c) (JObj l))).
Proof.
  intros Ht Hnp. unfold set.
  rewrite (or_NotProvided_defined t Ht).
  apply strict_eq_false in Hnp as ->.
  destruct (truthy (prop_get (_refs (this w)) (to_key c))) eqn:Htr; simpl.
  - destruct (prop_get (_refs (this w)) (to_key c)) as [| |b|n|s|l] eqn:He;
      try discriminate.
    intros [= <-]. exists l, (default [] (store w !! l)). simpl.
    rewrite lookup_insert_eq. simpl. split; [done|]. split; [done|]. by left.
  - rewrite prop_get_set_eq. intros [= <-].
    exists (fresh (dom (store w))), []. simpl.
    rewrite prop_get_set_eq, !lookup_insert_eq. simpl.
    split; [done|]. split; [done|]. by right.
Qed.

(** An item registration under a key that holds nothing returns. *)
Lemma set_item_on_empty_returns c i t w :
  t <> JUndefined -> t <> NotProvided ->
  truthy (prop_get (_refs (this w)) (to_key c)) = false ->
  exists w', set c i t w = Returns w'.
Proof.
  intros Ht Hnp Hempty. unfold set.
  rewrite (or_NotProvided_defined t Ht).
  apply strict_eq_false in Hnp as ->. rewrite Hempty. simpl.
  rewrite prop_get_set_eq. eauto.
Qed.

Lemma get_item_after_set c i t c' j w w' :
  t <> JUndefined -> t <> NotProvided ->
  i <> JUndefined ->
  c' <> JUndefined -> j <> JUndefined -> j <> NotProvided ->
  to_key c' = to_key c -> to_key j = to_key i ->
  set c i t w = Returns w' ->
  get c' j w' = t.
Proof.
  intros Ht Hnp Hi Hc' Hj Hjnp Hkc Hkj Hset.
  destruct (set_item_result c i t w w' Ht Hnp Hset) as (l & ps & Hl & Hps & _).
  unfold get.
  rewrite (or_NotProvided_defined c' Hc'), (or_NotProvided_defined j Hj).
  apply strict_eq_false in Hjnp as ->.
  rewrite Hkc, Hl. simpl. unfold get_prop. rewrite Hps, Hkj.
  rewrite (or_NotProvided_defined i Hi). apply prop_get_set_eq.
Qed.

(** X1: on a plain registry, [set(c, i, ref)] under a collection
    identifier [c] that holds nothing returns, and [get(c', j)] then returns
    [ref] for all identifiers [c'] and [j] whose string forms are those of
    [c] and [i]: the same identifiers, or an integer and its decimal
    string. *)
Theorem set_item_then_get_by_same_keys c i t c' j w :
  is_identifier c = true -> is_identifier i = true ->
  is_identifier c' = true -> is_identifier j = true ->
  registry_is_plain w ->
  t <> JUndefined -> t <> NotProvided ->
  truthy (get c JUndefined w) = false ->
  to_key c' = to_key c -> to_key j = to_key i ->
  exists w', set c i t w = Returns w' /\ get c' j w' = t.
Proof.
  intros Hc Hi Hc' Hj _ Ht Hnp Hempty Hkc Hkj.
  destruct (is_identifier_defined c Hc) as [Hcd _].
  destruct (is_identifier_defined i Hi) as [Hid _].
  destruct (is_identifier_defined c' Hc') as [Hcd' _].
  destruct (is_identifier_defined j Hj) as [Hjd Hjnp].
  rewrite (get_singular c _ Hcd) in Hempty.
  destruct (set_item_on_empty_returns c i t w Ht Hnp Hempty) as [w' Hset].
  exists w'. split; [done|]. by apply (get_item_after_set c i t c' j w w').
Qed.

Lemma set_item_then_get_by_same_keys_witness :
  exists w',
    set (JStr "items") (JNum 1) (JObj 1%nat) world_two_elements = Returns w'
    /\ get (JStr "items") (JStr "1") w' = JObj 1%nat.
Proof.
  apply (set_item_then_get_by_same_keys (JStr "items") (JNum 1) (JObj 1%nat)
           (JStr "items") (JStr "1") world_two_elements);
    try discriminate; reflexivity.
Defined.

(** X2: on a plain registry and with identifiers, [set] returns when it is
    given no ref (the singular form) and when the collection identifier
    holds nothing; and with an item identifier and a ref it throws whenever
    the collection identifier holds a truthy value that is not an object (a
    string, a number or [true]), such as the [NotProvided] that a
    [set(key)] without a ref has left there. *)
Theorem set_throws_when_key_holds_primitive c i t w :
  is_identifier c = true -> is_identifier i = true ->
  registry_is_plain w ->
  (exists w', set c t JUndefined w = Returns w')
  /\ (t <> JUndefined -> t <> NotProvided ->
      truthy (get c JUndefined w) = false ->
      exists w', set c i t w = Returns w')
  /\ (t <> JUndefined -> t <> NotProvided ->
      truthy (get c JUndefined w) = true ->
      (forall l, get c JUndefined w <> JObj l) ->
      exists e, set c i t w = Throws e).
Proof.
  intros Hc _ _. destruct (is_identifier_defined c Hc) as [Hcd _].
  rewrite (get_singular c _ Hcd).
  split; [rewrite set_singular; eauto|]. split.
  - intros Ht Hnp Hempty. by apply set_item_on_empty_returns.
  - intros Ht Hnp Htr Hprim. unfold set.
    rewrite (or_NotProvided_defined t Ht).
    apply strict_eq_false in Hnp as ->. rewrite Htr. simpl.
    destruct (prop_get (_refs (this w)) (to_key c)) as [| |b|n|s|l]; eauto.
    by destruct (Hprim l).
Qed.

Lemma set_throws_when_key_holds_primitive_witness :
  set (JStr "footer") JUndefined JUndefined
      (mkWorld {[ 0%nat := [] ]} constructor []) = Returns world_footer
  /\ exists e, set (JStr "footer") (JNum 0) (JObj 0%nat) world_footer = Throws e.
Proof.
  split; [reflexivity|].
  apply (set_throws_when_key_holds_primitive (JStr "footer") (JNum 0) (JObj 0%nat)
           world_footer eq_refl eq_refl eq_refl); try discriminate; reflexivity.
Defined.

(** X3: a [set] under an identifier [c] that returns, in the singular form
    or with an item identifier and a ref, leaves what is registered under
    every identifier with another string form as it was. *)
Theorem set_leaves_other_keys c a b c' v w w' :
  is_identifier c = true -> is_identifier c' = true ->
  b = JUndefined \/ is_identifier a = true ->
  to_key c' <> to_key c ->
  prop_lookup (_refs (this w)) (to_key c') = Some v ->
  set c a b w = Returns w' ->
  get c' JUndefined w' = v /\ get c' JUndefined w = v.
Proof.
  intros _ Hc' _ Hne Hreg.
  destruct (is_identifier_defined c' Hc') as [Hcd' _].
  rewrite !(get_singular c' _ Hcd').
  assert (prop_get (_refs (this w)) (to_key c') = v) as Hv
    by (unfold prop_get; by rewrite Hreg).
  rewrite Hv. unfold set.
  repeat (case_match; simplify_eq; simpl in * );
    intros; simplify_eq; simpl; try done;
    by rewrite prop_get_set_ne by done.
Qed.

Lemma set_leaves_other_keys_witness :
  exists w',
    set (JStr "items") (JNum 1) (JObj 1%nat) world_footer = Returns w'
    /\ get (JStr "footer") JUndefined w' = NotProvided.
Proof.
  eexists. split; [reflexivity|].
  apply (set_leaves_other_keys (JStr "items") (JNum 1) (JObj 1%nat) (JStr "footer")
           NotProvided world_footer); try discriminate; try reflexivity.
  by right.
Defined.

(** X4: on a plain registry and with identifiers, two items registered one
    after the other under a collection identifier that held nothing are
    both there: the second [set] returns and keeps the first item, provided
    the two item identifiers have different string forms. *)
Theorem set_item_keeps_other_items c i j t1 t2 w :
  is_identifier c = true -> is_identifier i = true -> is_identifier j = true ->
  registry_is_plain w ->
  t1 <> JUndefined -> t1 <> NotProvided -> t2 <> JUndefined -> t2 <> NotProvided ->
  truthy (get c JUndefined w) = false ->
  to_key j <> to_key i ->
  exists w1 w2,
    set c i t1 w = Returns w1 /\ set c j t2 w1 = Returns w2
    /\ get c i w2 = t1 /\ get c j w2 = t2.
Proof.
  intros Hc Hi Hj _ Ht1 Hnp1 Ht2 Hnp2 Hempty Hne.
  destruct (is_identifier_defined c Hc) as [Hcd _].
  destruct (is_identifier_defined i Hi) as [Hid Hinp].
  destruct (is_identifier_defined j Hj) as [Hjd Hjnp].
  rewrite (get_singular c _ Hcd) in Hempty.
  destruct (set_item_on_empty_returns c i t1 w Ht1 Hnp1 Hempty) as [w1 Hset1].
  destruct (set_item_result c i t1 w w1 Ht1 Hnp1 Hset1) as (l & ps & Hl & Hps & _).
  pose proof (set_item_on_object c j t2 l w1 Ht2 Hnp2 Hl) as Hset2.
  eexists. eexists. split; [done|]. split; [done|].
  split; [|by apply (get_item_after_set c j t2 c j w1 _)].
  unfold get. simpl.
  rewrite (or_NotProvided_defined c Hcd), (or_NotProvided_defined i Hid).
  apply strict_eq_false in Hinp as ->. rewrite Hl. simpl.
  unfold get_prop. simpl. rewrite lookup_insert_eq. simpl.
  rewrite (or_NotProvided_defined j Hjd).
  rewrite prop_get_set_ne by done.
  unfold own_props in Hps. rewrite Hps, (or_NotProvided_defined i Hid).
  apply prop_get_set_eq.
Qed.

Lemma set_item_keeps_other_items_witness :
  exists w1 w2,
    set (JStr "items") (JStr "a") (JObj 0%nat) world_two_elements = Returns w1
    /\ set (JStr "items") (JStr "b") (JObj 1%nat) w1 = Returns w2
    /\ get (JStr "items") (JStr "a") w2 = JObj 0%nat
    /\ get (JStr "items") (JStr "b") w2 = JObj 1%nat.
Proof.
  apply (set_item_keeps_other_items (JStr "items") (JStr "a") (JStr "b")
           (JObj 0%nat) (JObj 1%nat) world_two_elements);
    try discriminate; reflexivity.
Defined.

(** ** The class methods *)

(** X5: [RefManager.focus(ref)] either returns [null] and asks nothing of
    the browser, or returns the element on which it has called [focus()],
    once: the ref itself when the ref has a [focus] of its own, and otherwise
    the node that [findDOMNode] gives, which is focused only when it has a
    [parentNode]. *)
Theorem static_focus_returns_what_it_focused findDOMNode ref w :
  ((static_focus findDOMNode ref w).1 = JNull /\ (static_focus findDOMNode ref w).2 = w)
  \/ (truthy (static_focus findDOMNode ref w).1 = true
      /\ (static_focus findDOMNode ref w).2
         = emit (DomFocus (static_focus findDOMNode ref w).1) w
      /\ ((truthy (get_prop (store w) ref "focus") = true
           /\ (static_focus findDOMNode ref w).1 = ref)
          \/ (truthy (get_prop (store w) ref "focus") = false
              /\ (static_focus findDOMNode ref w).1 = findDOMNode ref
              /\ truthy (get_prop (store w) (findDOMNode ref) "parentNode") = true))).
Proof.
  unfold static_focus.
  destruct (truthy ref) eqn:Href; [|by left].
  destruct (truthy (get_prop (store w) ref "focus")) eqn:Hown.
  - right. simpl. eauto.
  - destruct (truthy (findDOMNode ref)) eqn:Hnode; [|by left].
    destruct (truthy (get_prop (store w) (findDOMNode ref) "parentNode")) eqn:Hp;
      [|by left].
    right. simpl. eauto 6.
Qed.

(** X6: [RefManager.scrollTo(ref, options)] either returns [null] and asks
    nothing of the browser, or returns the element on which it has called
    [scrollIntoView], once. A ref with a [scrollIntoView] of its own is
    scrolled without the options; the node from [findDOMNode] is scrolled,
    when it has a [parentNode], with the options, or with [false] when none
    were given. *)
Theorem static_scrollTo_returns_what_it_scrolled findDOMNode ref options w :
  ((static_scrollTo findDOMNode ref options w).1 = JNull
   /\ (static_scrollTo findDOMNode ref options w).2 = w)
  \/ (truthy (static_scrollTo findDOMNode ref options w).1 = true
      /\ ((truthy (get_prop (store w) ref "scrollIntoView") = true
           /\ (static_scrollTo findDOMNode ref options w).1 = ref
           /\ (static_scrollTo findDOMNode ref options w).2
              = emit (DomScrollIntoView ref []) w)
          \/ (truthy (get_prop (store w) ref "scrollIntoView") = false
              /\ (static_scrollTo findDOMNode ref options w).1 = findDOMNode ref
              /\ truthy (get_prop (store w) (findDOMNode ref) "parentNode") = true
              /\ (static_scrollTo findDOMNode ref options w).2
                 = emit (DomScrollIntoView (findDOMNode ref)
                           [if strict_eq (or_NotProvided options) NotProvided
                            then JBool false else options]) w))).
Proof.
  unfold static_scrollTo.
  destruct (truthy ref) eqn:Href; [|by left].
  destruct (truthy (get_prop (store w) ref "scrollIntoView")) eqn:Hown.
  - right. simpl. eauto 6.
  - destruct (truthy (findDOMNode ref)) eqn:Hnode; [|by left].
    destruct (truthy (get_prop (store w) (findDOMNode ref) "parentNode")) eqn:Hp;
      [|by left].
    right. simpl. split; [done|]. right. split; [done|]. split; [done|].
    split; [done|]. do 3 f_equal.
    destruct (strict_eq (or_NotProvided options) NotProvided) eqn:E; [done|].
    apply strict_eq_false in E. by destruct options.
Qed.

(** X7: [isFocusedRefInDOM()] is truthy exactly when the [DOMRef] of the
    current focus is an element, is [document.activeElement] and has a
    [parentNode]. *)
Theorem isFocusedRefInDOM_truthy_iff activeElement w :
  truthy (isFocusedRefInDOM activeElement w) = true
  <-> (truthy (f_DOMRef (getCurrentFocus w)) = true
       /\ f_DOMRef (getCurrentFocus w) = activeElement
       /\ truthy (get_prop (store w) (f_DOMRef (getCurrentFocus w)) "parentNode") = true).
Proof.
  unfold isFocusedRefInDOM, static_refIsFocused.
  destruct (truthy (f_DOMRef (getCurrentFocus w))) eqn:Hd.
  - destruct (strict_eq (f_DOMRef (getCurrentFocus w)) activeElement) eqn:Ha.
    + apply strict_eq_true in Ha. simpl.
      split; [by intros H | by intros (_ & _ & H)].
    + apply strict_eq_false in Ha. simpl.
      split; [discriminate | by intros (_ & H & _)].
  - rewrite Hd. split; [discriminate | by intros [H _]].
Qed.

Lemma isFocusedRefInDOM_truthy_iff_witness :
  truthy (isFocusedRefInDOM (JObj 5%nat) world_grid) = false
  /\ truthy (isFocusedRefInDOM JUndefined (mkWorld ∅ constructor [])) = false.
Proof.
  split.
  - destruct (truthy (isFocusedRefInDOM (JObj 5%nat) world_grid)) eqn:E; [|reflexivity].
    apply (proj1 (isFocusedRefInDOM_truthy_iff (JObj 5%nat) world_grid)) in E.
    destruct E as (_ & _ & E). discriminate E.
  - reflexivity.
Defined.

(** ** Focus operations *)

Lemma listener_calls_app t1 t2 :
  listener_calls (t1 ++ t2) = listener_calls t1 ++ listener_calls t2.
Proof. apply List.filter_app. Qed.

Lemma listener_calls_of_calls (prev next : FocusObject) (ls : list jsval) :
  listener_calls ((fun l => ListenerCall l prev next) <$> ls)
  = (fun l => ListenerCall l prev next) <$> ls.
Proof.
  unfold listener_calls. induction ls as [|l ls IH]; [done|].
  simpl. f_equal. exact IH.
Qed.

(** [focus] on a ref that is there. *)
Lemma focus_present findDOMNode ref options w :
  truthy ref = true ->
  focus findDOMNode ref options w
  = setCurrentFocus
      (mkFocus ref (static_focus findDOMNode ref w).1
               (prop_get options "id") (prop_get options "collectionId")
               (prop_get options "context")
               (JBool (truthy (static_focus findDOMNode ref w).1)))
      (static_focus findDOMNode ref w).2.
Proof.
  intros Href. unfold focus. rewrite Href.
  by destruct (static_focus findDOMNode ref w).
Qed.

Lemma focus_has_outcome findDOMNode ref options w :
  focus_outcome w (focus findDOMNode ref options w).
Proof.
  destruct (truthy ref) eqn:Href.
  - right. rewrite (focus_present _ _ _ _ Href), setCurrentFocus_spec.
    destruct (static_focus_untouched findDOMNode ref w) as (Hthis & Hstore & _).
    simpl. by rewrite Hthis, Hstore.
  - left. by rewrite (focus_absent _ _ _ _ Href).
Qed.

(** X8: each of [focus], [focusById], [focusNext] and [focusNextById] ends
    in one of two ways. Either the record returned has [ref = null] and
    [applied = false], and the world is as it was: the current focus has not
    moved. Or the record is of a ref, it is now the current focus (with
    [applied] telling whether an element was focused), and the registry and
    the listeners are as they were. *)
Theorem focus_operations_move_focus_or_change_nothing findDOMNode w :
  (forall ref options, focus_outcome w (focus findDOMNode ref options w))
  /\ (forall collectionId itemIdOrOptions options,
        focus_outcome w (focusById findDOMNode collectionId itemIdOrOptions options w))
  /\ (forall refCollection o, focus_outcome w (focusNext findDOMNode refCollection o w))
  /\ (forall collectionId o, focus_outcome w (focusNextById findDOMNode collectionId o w)).
Proof.
  assert (forall refCollection o,
            focus_outcome w (focusNext findDOMNode refCollection o w)) as Hnext.
  { intros refCollection o. unfold focusNext.
    destruct (negb (truthy refCollection)); [by left|].
    destruct (_ || _); apply focus_has_outcome. }
  split; [intros; apply focus_has_outcome|]. split; [|split; [done|]].
  - intros collectionId itemIdOrOptions options.
    destruct (focusById_is_focus findDOMNode collectionId itemIdOrOptions options w)
      as (ref & opts & ->).
    apply focus_has_outcome.
  - intros collectionId o. apply Hnext.
Qed.

(** X9: [focus] on a ref that is there returns the record of that ref, of
    the element that [RefManager.focus] returns for it and of the [id],
    [collectionId] and [context] given, and each listener is then called
    once, in the order of registration, with the previous focus and this
    record; this also when no element could be focused. *)
Theorem focus_present_ref_notifies findDOMNode ref id collectionId context w :
  truthy ref = true ->
  let options := [("id", id); ("collectionId", collectionId); ("context", context)] in
  let el := (static_focus findDOMNode ref w).1 in
  (focus findDOMNode ref options w).1
    = mkFocus ref el id collectionId context (JBool (truthy el))
  /\ listener_calls (trace (focus findDOMNode ref options w).2)
     = listener_calls (trace w)
       ++ ((fun listener =>
              ListenerCall listener (getCurrentFocus w) (focus findDOMNode ref options w).1)
             <$> _focusListeners (this w)).
Proof.
  intros Href options el.
  rewrite (focus_present _ _ _ _ Href), setCurrentFocus_spec. simpl.
  split; [done|].
  destruct (static_focus_untouched findDOMNode ref w) as (Hthis & _ & Hcalls).
  by rewrite listener_calls_app, listener_calls_of_calls, Hcalls, Hthis.
Qed.

Lemma focus_present_ref_notifies_witness :
  (focus no_dom (JObj 0%nat) [("id", JStr "a"); ("collectionId", JNull); ("context", JNull)]
     world_one_listener).1
  = mkFocus (JObj 0%nat) JNull (JStr "a") JNull JNull (JBool false).
Proof.
  apply (focus_present_ref_notifies no_dom (JObj 0%nat) (JStr "a") JNull JNull
           world_one_listener).
  reflexivity.
Defined.

Lemma focus_keeps_registry findDOMNode ref options w c i :
  get c i (focus findDOMNode ref options w).2 = get c i w.
Proof.
  unfold get.
  destruct (focus_has_outcome findDOMNode ref options w)
    as [(_ & _ & _ & ->) | (_ & _ & _ & -> & -> & _)]; done.
Qed.

Lemma prop_get_obj_assign_id base id collectionId :
  prop_get (obj_assign base [("id", id); ("collectionId", collectionId)]) "id" = id
  /\ prop_get (obj_assign base [("id", id); ("collectionId", collectionId)]) "collectionId"
     = collectionId.
Proof.
  unfold obj_assign. simpl. split.
  - rewrite prop_get_set_ne by done. apply prop_get_set_eq.
  - apply prop_get_set_eq.
Qed.

(** X10: [focusById(collectionId, itemId)] on a registered item, with or
    without an options hash after it, focuses the ref that [get] returns
    and records it under these two identifiers, which the options cannot
    replace: the current focus then leads back to the ref through [get]. *)
Theorem focusById_found_is_recorded_under_its_ids findDOMNode collectionId itemId options w :
  typeof itemId <> "object" -> truthy itemId = true -> itemId <> NotProvided ->
  truthy (get collectionId itemId w) = true ->
  let r := (focusById findDOMNode collectionId itemId options w).1 in
  let w' := (focusById findDOMNode collectionId itemId options w).2 in
  f_ref r = get collectionId itemId w
  /\ f_id r = itemId
  /\ f_collectionId r = collectionId
  /\ getCurrentFocus w' = r
  /\ get (f_collectionId (getCurrentFocus w')) (f_id (getCurrentFocus w')) w'
     = f_ref (getCurrentFocus w').
Proof.
  intros Hty Htr Hnp Href r w'.
  assert (itemId <> JUndefined) as Hdef by (by intros ->).
  assert (exists opts,
            focusById findDOMNode collectionId itemId options w
            = focus findDOMNode (get collectionId itemId w) opts w
            /\ prop_get opts "id" = itemId
            /\ prop_get opts "collectionId" = collectionId) as (opts & Heq & Hid & Hcid).
  { unfold focusById. rewrite (or_NotProvided_defined itemId Hdef).
    destruct (strict_eq (or_NotProvided options) NotProvided).
    - unfold focusById_args.
      apply strict_eq_false in Hnp as ->. apply String.eqb_neq in Hty as ->.
      rewrite Htr. eexists. split; [done|]. done.
    - eexists. split; [done|]. apply prop_get_obj_assign_id. }
  subst r w'. rewrite Heq.
  assert (f_ref (focus findDOMNode (get collectionId itemId w) opts w).1
          = get collectionId itemId w) as Hr.
  { by rewrite (focus_present _ _ _ _ Href), setCurrentFocus_spec. }
  assert (getCurrentFocus (focus findDOMNode (get collectionId itemId w) opts w).2
          = (focus findDOMNode (get collectionId itemId w) opts w).1) as Hcur.
  { by rewrite (focus_present _ _ _ _ Href), setCurrentFocus_spec. }
  rewrite Hcur, focus_id, focus_collectionId, Hid, Hcid, Hr.
  repeat split; try done. apply focus_keeps_registry.
Qed.

Lemma focusById_found_is_recorded_under_its_ids_witness :
  f_ref (focusById no_dom (JStr "grid") (JStr "b") JUndefined world_grid).1 = JObj 2%nat
  /\ f_id (focusById no_dom (JStr "grid") (JStr "b") JUndefined world_grid).1 = JStr "b".
Proof.
  assert (typeof (JStr "b") <> "object") as Hty by discriminate.
  assert (JStr "b" <> NotProvided) as Hnp by discriminate.
  destruct (focusById_found_is_recorded_under_its_ids no_dom (JStr "grid") (JStr "b")
              JUndefined world_grid Hty eq_refl Hnp eq_refl) as (Hr & Hid & _).
  split; [exact Hr | exact Hid].
Defined.

(** ** Navigation in the four directions *)

Lemma nextRefId_LEFT ids k w y x :
  nextRefId ids k FocusDirection.LEFT w y x
  = if 0 <=? k - 1 then array_get ids (k - 1)
    else if x then array_get ids (Z.of_nat (length ids) - 1)
    else array_get ids 0.
Proof. reflexivity. Qed.

Lemma nextRefId_RIGHT ids k w y x :
  nextRefId ids k FocusDirection.RIGHT w y x
  = if k + 1 <? Z.of_nat (length ids) then array_get ids (k + 1)
    else if x then array_get ids 0
    else array_get ids (Z.of_nat (length ids) - 1).
Proof. reflexivity. Qed.

Lemma nextRefId_UP ids k w y x :
  nextRefId ids k FocusDirection.UP w y x
  = if 0 <=? k - w then array_get ids (k - w)
    else if y then array_get ids (Z.of_nat (length ids) - 1)
    else array_get ids 0.
Proof. reflexivity. Qed.

Lemma nextRefId_DOWN ids k w y x :
  nextRefId ids k FocusDirection.DOWN w y x
  = if k + w <? Z.of_nat (length ids) then array_get ids (k + w)
    else if y then array_get ids 0
    else array_get ids (Z.of_nat (length ids) - w).
Proof. reflexivity. Qed.

Lemma direction_default d :
  d <> JUndefined ->
  match d with JUndefined => FocusDirection.RIGHT | d' => d' end = d.
Proof. by destruct d. Qed.

Lemma array_get_elem (ids : list jsval) k :
  0 <= k < Z.of_nat (length ids) -> array_get ids k ∈ ids.
Proof.
  intros Hk. unfold array_get.
  destruct (Z.ltb_spec k 0) as [?|_]; [lia|].
  destruct (lookup_lt_is_Some_2 ids (Z.to_nat k)) as [x Hx]; [lia|].
  rewrite Hx. simpl. by eapply list_elem_of_lookup_2.
Qed.

Lemma NoDup_first {A} (l : list A) i x :
  NoDup l -> l !! i = Some x -> x ∉ take i l.
Proof.
  intros Hnd Hi [j [Hj Hlt]]%elem_of_take.
  pose proof (NoDup_lookup l i j x Hnd Hi Hj). lia.
Qed.

(** X11: on a ref collection, with one of the four directions (or none,
    which means RIGHT), a non-empty sequence of candidates and a row width
    between 1 and their number, the identifier that [focusNext] selects is
    one of the candidates, wherever the current focus is. *)
Theorem focusNext_selects_a_candidate findDOMNode refCollection o w :
  truthy refCollection = true ->
  o_direction o ∈ [JUndefined; FocusDirection.LEFT; FocusDirection.RIGHT;
                   FocusDirection.UP; FocusDirection.DOWN] ->
  indexesToUse refCollection o w <> [] ->
  1 <= default 1 (o_collectionWidth o)
    <= Z.of_nat (length (indexesToUse refCollection o w)) ->
  f_id (focusNext findDOMNode refCollection o w).1 ∈ indexesToUse refCollection o w.
Proof.
  intros Hrc Hdir Hne Hw.
  assert (0 < Z.of_nat (length (indexesToUse refCollection o w))) as Hlen.
  { destruct (indexesToUse refCollection o w); [done | simpl; lia]. }
  destruct (decide (f_collectionId (getCurrentFocus w) = o_collectionId o)) as [Hc|Hc];
    [destruct (decide (f_id (getCurrentFocus w) ∈ indexesToUse refCollection o w))
      as [Hin|Hin]|].
  - destruct (indexOf_from_found _ _ 0 Hin) as (i & _ & Hi & Hfirst).
    rewrite (focusNext_move findDOMNode refCollection o w i Hrc Hc Hi Hfirst).
    unfold focus_item. rewrite focus_id.
    change (prop_get (("id", ?x) :: _) "id") with x.
    apply lookup_lt_Some in Hi.
    set (n := length (indexesToUse refCollection o w)) in *.
    repeat (apply elem_of_cons in Hdir as [-> | Hdir]);
      [| | | | | by apply elem_of_nil in Hdir];
      try rewrite direction_default by discriminate.
    + cbv iota. rewrite nextRefId_RIGHT. fold n.
      repeat case_match; apply array_get_elem; lia.
    + rewrite nextRefId_LEFT. fold n.
      repeat case_match; apply array_get_elem; lia.
    + rewrite nextRefId_RIGHT. fold n.
      repeat case_match; apply array_get_elem; lia.
    + rewrite nextRefId_UP. fold n.
      repeat case_match; apply array_get_elem; lia.
    + rewrite nextRefId_DOWN. fold n.
      repeat case_match; apply array_get_elem; lia.
  - rewrite (focusNext_reset findDOMNode refCollection o w Hrc (or_intror Hin)).
    unfold focus_item. rewrite focus_id. apply array_get_elem. lia.
  - rewrite (focusNext_reset findDOMNode refCollection o w Hrc (or_introl Hc)).
    unfold focus_item. rewrite focus_id. apply array_get_elem. lia.
Qed.

Lemma focusNext_selects_a_candidate_witness :
  f_id (focusNext no_dom (JObj 7%nat)
          (towards FocusDirection.UP (JStr "grid") (Some 3) true) world_grid).1
  ∈ indexesToUse (JObj 7%nat)
      (towards FocusDirection.UP (JStr "grid") (Some 3) true) world_grid.
Proof.
  apply (focusNext_selects_a_candidate no_dom (JObj 7%nat)
           (towards FocusDirection.UP (JStr "grid") (Some 3) true) world_grid).
  - reflexivity.
  - simpl. do 3 apply list_elem_of_further. apply list_elem_of_here.
  - by vm_compute.
  - by vm_compute.
Defined.

(** X12: RIGHT (the default direction), with the focus in the collection
    and its id at index [i]: the candidate at index [i + 1] is selected,
    whatever the row width. From the last candidate, [xWrap] leads to the
    first candidate, and without it the last candidate is selected again. *)
Theorem focusNext_right_steps_through_the_list findDOMNode refCollection o w
    (i : nat) (next : jsval) :
  truthy refCollection = true ->
  o_direction o = FocusDirection.RIGHT \/ o_direction o = JUndefined ->
  f_collectionId (getCurrentFocus w) = o_collectionId o ->
  indexesToUse refCollection o w !! i = Some (f_id (getCurrentFocus w)) ->
  f_id (getCurrentFocus w) ∉ take i (indexesToUse refCollection o w) ->
  indexesToUse refCollection o w !! (i + 1)%nat = Some next
  \/ (length (indexesToUse refCollection o w) = (i + 1)%nat
      /\ ((default false (o_xWrap o) = true
           /\ indexesToUse refCollection o w !! 0%nat = Some next)
          \/ (default false (o_xWrap o) = false /\ next = f_id (getCurrentFocus w)))) ->
  focusNext findDOMNode refCollection o w = focus_item findDOMNode refCollection o w next
  /\ f_id (focusNext findDOMNode refCollection o w).1 = next.
Proof.
  intros Hrc Hdir Hc Hi Hfirst Hnext.
  assert (focusNext findDOMNode refCollection o w
          = focus_item findDOMNode refCollection o w next) as ->.
  { rewrite (focusNext_move findDOMNode refCollection o w i Hrc Hc Hi Hfirst).
    f_equal.
    assert (match o_direction o with JUndefined => FocusDirection.RIGHT | d => d end
            = FocusDirection.RIGHT) as -> by (by destruct Hdir as [-> | ->]).
    rewrite nextRefId_RIGHT.
    destruct Hnext as [Hn | (Hlen & [[-> Hn] | [-> ->]])].
    - pose proof (lookup_lt_Some _ _ _ Hn).
      destruct (Z.ltb_spec (Z.of_nat i + 1)
                  (Z.of_nat (length (indexesToUse refCollection o w)))) as [_|?]; [|lia].
      replace (Z.of_nat i + 1) with (Z.of_nat (i + 1)) by lia.
      by apply array_get_lookup.
    - destruct (Z.ltb_spec (Z.of_nat i + 1)
                  (Z.of_nat (length (indexesToUse refCollection o w)))) as [?|_]; [lia|].
      by apply (array_get_lookup _ 0).
    - destruct (Z.ltb_spec (Z.of_nat i + 1)
                  (Z.of_nat (length (indexesToUse refCollection o w)))) as [?|_]; [lia|].
      replace (Z.of_nat (length (indexesToUse refCollection o w)) - 1)
        with (Z.of_nat i) by lia.
      by apply array_get_lookup. }
  split; [done|]. unfold focus_item. by rewrite focus_id.
Qed.

Lemma focusNext_right_steps_through_the_list_witness :
  f_id (focusNext no_dom (JObj 7%nat)
          (towards FocusDirection.RIGHT (JStr "grid") (Some 3) false) world_grid).1
  = JStr "f".
Proof.
  apply (focusNext_right_steps_through_the_list no_dom (JObj 7%nat)
           (towards FocusDirection.RIGHT (JStr "grid") (Some 3) false) world_grid
           4 (JStr "f")).
  - reflexivity.
  - by left.
  - reflexivity.
  - by vm_compute.
  - replace (indexesToUse (JObj 7%nat)
               (towards FocusDirection.RIGHT (JStr "grid") (Some 3) false) world_grid)
      with [JStr "a"; JStr "b"; JStr "c"; JStr "d"; JStr "e"; JStr "f"]
      by (by vm_compute).
    simpl. intros H. repeat (apply elem_of_cons in H as [H|H]; [discriminate H|]).
    by apply elem_of_nil in H.
  - left. by vm_compute.
Defined.

(** X13: LEFT, with the focus in the collection and its id at index [i]:
    the candidate at index [i - 1] is selected, whatever the row width. From
    the first candidate, [xWrap] leads to the last candidate, and without it
    the first candidate is selected again. *)
Theorem focusNext_left_steps_through_the_list findDOMNode refCollection o w
    (i : nat) (next : jsval) :
  truthy refCollection = true ->
  o_direction o = FocusDirection.LEFT ->
  f_collectionId (getCurrentFocus w) = o_collectionId o ->
  indexesToUse refCollection o w !! i = Some (f_id (getCurrentFocus w)) ->
  f_id (getCurrentFocus w) ∉ take i (indexesToUse refCollection o w) ->
  ((1 <= i)%nat /\ indexesToUse refCollection o w !! (i - 1)%nat = Some next)
  \/ (i = 0%nat
      /\ ((default false (o_xWrap o) = true
           /\ indexesToUse refCollection o w
                !! (length (indexesToUse refCollection o w) - 1)%nat = Some next)
          \/ (default false (o_xWrap o) = false /\ next = f_id (getCurrentFocus w)))) ->
  focusNext findDOMNode refCollection o w = focus_item findDOMNode refCollection o w next
  /\ f_id (focusNext findDOMNode refCollection o w).1 = next.
Proof.
  intros Hrc Hdir Hc Hi Hfirst Hnext.
  assert (focusNext findDOMNode refCollection o w
          = focus_item findDOMNode refCollection o w next) as ->.
  { rewrite (focusNext_move findDOMNode refCollection o w i Hrc Hc Hi Hfirst), Hdir.
    change (match FocusDirection.LEFT with
            | JUndefined => FocusDirection.RIGHT
            | d => d
            end) with FocusDirection.LEFT.
    f_equal. rewrite nextRefId_LEFT.
    pose proof (lookup_lt_Some _ _ _ Hi) as Hlt.
    destruct Hnext as [[Hpos Hn] | (-> & [[-> Hn] | [-> ->]])].
    - destruct (Z.leb_spec 0 (Z.of_nat i - 1)) as [_|?]; [|lia].
      replace (Z.of_nat i - 1) with (Z.of_nat (i - 1)) by lia.
      by apply array_get_lookup.
    - change (0 <=? Z.of_nat 0 - 1) with false. cbv iota.
      replace (Z.of_nat (length (indexesToUse refCollection o w)) - 1)
        with (Z.of_nat (length (indexesToUse refCollection o w) - 1)) by lia.
      by apply array_get_lookup.
    - change (0 <=? Z.of_nat 0 - 1) with false. cbv iota.
      by apply (array_get_lookup _ 0). }
  split; [done|]. unfold focus_item. by rewrite focus_id.
Qed.

Lemma focusNext_left_steps_through_the_list_witness :
  f_id (focusNext no_dom (JObj 7%nat)
          (towards FocusDirection.LEFT (JStr "grid") (Some 3) false) world_grid).1
  = JStr "d".
Proof.
  apply (focusNext_left_steps_through_the_list no_dom (JObj 7%nat)
           (towards FocusDirection.LEFT (JStr "grid") (Some 3) false) world_grid
           4 (JStr "d")).
  - reflexivity.
  - reflexivity.
  - reflexivity.
  - by vm_compute.
  - replace (indexesToUse (JObj 7%nat)
               (towards FocusDirection.LEFT (JStr "grid") (Some 3) false) world_grid)
      with [JStr "a"; JStr "b"; JStr "c"; JStr "d"; JStr "e"; JStr "f"]
      by (by vm_compute).
    simpl. intros H. repeat (apply elem_of_cons in H as [H|H]; [discriminate H|]).
    by apply elem_of_nil in H.
  - left. split; [lia | by vm_compute].
Defined.

(** X14: UP with a row width [cw], the focus in the collection and its id
    at index [i]: the candidate at index [i - cw] is selected when there is
    one. From the first row, [yWrap] leads to the last candidate of the
    sequence, and without it the first candidate is selected. *)
Theorem focusNext_up_moves_one_row findDOMNode refCollection o w
    (i cw : nat) (next : jsval) :
  truthy refCollection = true ->
  o_direction o = FocusDirection.UP ->
  default 1 (o_collectionWidth o) = Z.of_nat cw ->
  f_collectionId (getCurrentFocus w) = o_collectionId o ->
  indexesToUse refCollection o w !! i = Some (f_id (getCurrentFocus w)) ->
  f_id (getCurrentFocus w) ∉ take i (indexesToUse refCollection o w) ->
  ((cw <= i)%nat /\ indexesToUse refCollection o w !! (i - cw)%nat = Some next)
  \/ ((i < cw)%nat
      /\ ((default false (o_yWrap o) = true
           /\ indexesToUse refCollection o w
                !! (length (indexesToUse refCollection o w) - 1)%nat = Some next)
          \/ (default false (o_yWrap o) = false
              /\ indexesToUse refCollection o w !! 0%nat = Some next))) ->
  focusNext findDOMNode refCollection o w = focus_item findDOMNode refCollection o w next
  /\ f_id (focusNext findDOMNode refCollection o w).1 = next.
Proof.
  intros Hrc Hdir Hcw Hc Hi Hfirst Hnext.
  assert (focusNext findDOMNode refCollection o w
          = focus_item findDOMNode refCollection o w next) as ->.
  { rewrite (focusNext_move findDOMNode refCollection o w i Hrc Hc Hi Hfirst), Hdir, Hcw.
    change (match FocusDirection.UP with
            | JUndefined => FocusDirection.RIGHT
            | d => d
            end) with FocusDirection.UP.
    f_equal. rewrite nextRefId_UP.
    pose proof (lookup_lt_Some _ _ _ Hi) as Hlt.
    destruct Hnext as [[Hle Hn] | (Hlt' & [[-> Hn] | [-> Hn]])].
    - destruct (Z.leb_spec 0 (Z.of_nat i - Z.of_nat cw)) as [_|?]; [|lia].
      replace (Z.of_nat i - Z.of_nat cw) with (Z.of_nat (i - cw)) by lia.
      by apply array_get_lookup.
    - destruct (Z.leb_spec 0 (Z.of_nat i - Z.of_nat cw)) as [?|_]; [lia|].
      replace (Z.of_nat (length (indexesToUse refCollection o w)) - 1)
        with (Z.of_nat (length (indexesToUse refCollection o w) - 1)) by lia.
      by apply array_get_lookup.
    - destruct (Z.leb_spec 0 (Z.of_nat i - Z.of_nat cw)) as [?|_]; [lia|].
      by apply (array_get_lookup _ 0). }
  split; [done|]. unfold focus_item. by rewrite focus_id.
Qed.

Lemma focusNext_up_moves_one_row_witness :
  f_id (focusNext no_dom (JObj 7%nat)
          (towards FocusDirection.UP (JStr "grid") (Some 3) false) world_grid).1
  = JStr "b".
Proof.
  apply (focusNext_up_moves_one_row no_dom (JObj 7%nat)
           (towards FocusDirection.UP (JStr "grid") (Some 3) false) world_grid
           4 3 (JStr "b")).
  - reflexivity.
  - reflexivity.
  - reflexivity.
  - reflexivity.
  - by vm_compute.
  - replace (indexesToUse (JObj 7%nat)
               (towards FocusDirection.UP (JStr "grid") (Some 3) false) world_grid)
      with [JStr "a"; JStr "b"; JStr "c"; JStr "d"; JStr "e"; JStr "f"]
      by (by vm_compute).
    simpl. intros H. repeat (apply elem_of_cons in H as [H|H]; [discriminate H|]).
    by apply elem_of_nil in H.
  - left. split; [lia | by vm_compute].
Defined.

Lemma focus_item_present findDOMNode refCollection o w next :
  truthy (get_prop (store w) refCollection (to_key next)) = true ->
  f_id (getCurrentFocus (focus_item findDOMNode refCollection o w next).2) = next
  /\ f_collectionId (getCurrentFocus (focus_item findDOMNode refCollection o w next).2)
     = o_collectionId o
  /\ store (focus_item findDOMNode refCollection o w next).2 = store w.
Proof.
  intros Href. unfold focus_item.
  rewrite (focus_present _ _ _ _ Href), setCurrentFocus_spec. simpl.
  by destruct (static_focus_untouched findDOMNode
                 (get_prop (store w) refCollection (to_key next)) w) as (_ & -> & _).
Qed.

(** X15: over candidates without repetitions, a RIGHT that moves the focus
    to the next candidate (its ref is in the collection) followed by a LEFT
    with the same candidates brings the focus back: the second [focusNext]
    selects the identifier that was current at the start. *)
Theorem focusNext_right_then_left_returns findDOMNode refCollection o o' w
    (i : nat) (next : jsval) :
  truthy refCollection = true ->
  NoDup (indexesToUse refCollection o w) ->
  o_direction o = FocusDirection.RIGHT -> o_direction o' = FocusDirection.LEFT ->
  o_indexes o' = o_indexes o -> o_collectionId o' = o_collectionId o ->
  f_collectionId (getCurrentFocus w) = o_collectionId o ->
  indexesToUse refCollection o w !! i = Some (f_id (getCurrentFocus w)) ->
  indexesToUse refCollection o w !! (i + 1)%nat = Some next ->
  truthy (get_prop (store w) refCollection (to_key next)) = true ->
  f_id (getCurrentFocus (focusNext findDOMNode refCollection o w).2) = next
  /\ f_id (focusNext findDOMNode refCollection o'
             (focusNext findDOMNode refCollection o w).2).1
     = f_id (getCurrentFocus w).
Proof.
  intros Hrc Hnd Hdir Hdir' Hidx Hcid Hc Hi Hn Href.
  assert (focusNext findDOMNode refCollection o w
          = focus_item findDOMNode refCollection o w next) as ->.
  { rewrite (focusNext_move findDOMNode refCollection o w i Hrc Hc Hi
               (NoDup_first _ _ _ Hnd Hi)), Hdir.
    change (match FocusDirection.RIGHT with
            | JUndefined => FocusDirection.RIGHT
            | d => d
            end) with FocusDirection.RIGHT.
    f_equal. rewrite nextRefId_RIGHT.
    pose proof (lookup_lt_Some _ _ _ Hn).
    destruct (Z.ltb_spec (Z.of_nat i + 1)
                (Z.of_nat (length (indexesToUse refCollection o w)))) as [_|?]; [|lia].
    replace (Z.of_nat i + 1) with (Z.of_nat (i + 1)) by lia.
    by apply array_get_lookup. }
  destruct (focus_item_present findDOMNode refCollection o w next Href)
    as (Hid1 & Hc1 & Hstore).
  split; [done|].
  set (w1 := (focus_item findDOMNode refCollection o w next).2) in *.
  assert (indexesToUse refCollection o' w1 = indexesToUse refCollection o w) as Hids.
  { unfold indexesToUse. by rewrite Hidx, Hstore. }
  assert (indexesToUse refCollection o' w1 !! (i + 1)%nat = Some (f_id (getCurrentFocus w1)))
    as Hn1 by (by rewrite Hids, Hid1).
  assert (f_collectionId (getCurrentFocus w1) = o_collectionId o') as Hc1'
    by (by rewrite Hc1, Hcid).
  assert (NoDup (indexesToUse refCollection o' w1)) as Hnd1 by (by rewrite Hids).
  rewrite (focusNext_move findDOMNode refCollection o' w1 (i + 1) Hrc Hc1' Hn1
             (NoDup_first _ _ _ Hnd1 Hn1)), Hdir'.
  change (match FocusDirection.LEFT with
          | JUndefined => FocusDirection.RIGHT
          | d => d
          end) with FocusDirection.LEFT.
  unfold focus_item. rewrite focus_id, nextRefId_LEFT.
  change (prop_get (("id", ?x) :: _) "id") with x.
  destruct (Z.leb_spec 0 (Z.of_nat (i + 1) - 1)) as [_|?]; [|lia].
  replace (Z.of_nat (i + 1) - 1) with (Z.of_nat i) by lia.
  rewrite Hids. by apply array_get_lookup.
Qed.

Lemma focusNext_right_then_left_returns_witness :
  f_id (focusNext no_dom (JObj 7%nat)
          (towards FocusDirection.LEFT (JStr "grid") None false)
          (focusNext no_dom (JObj 7%nat)
             (towards FocusDirection.RIGHT (JStr "grid") None false) world_grid).2).1
  = JStr "e".
Proof.
  apply (focusNext_right_then_left_returns no_dom (JObj 7%nat)
           (towards FocusDirection.RIGHT (JStr "grid") None false)
           (towards FocusDirection.LEFT (JStr "grid") None false)
           world_grid 4 (JStr "f")); try reflexivity; try (by vm_compute).
  replace (indexesToUse (JObj 7%nat)
             (towards FocusDirection.RIGHT (JStr "grid") None false) world_grid)
    with [JStr "a"; JStr "b"; JStr "c"; JStr "d"; JStr "e"; JStr "f"]
    by (by vm_compute).
  repeat (apply NoDup_cons; split;
          [intros H; repeat (apply elem_of_cons in H as [H|H]; [discriminate H|]);
           by apply elem_of_nil in H|]).
  apply NoDup_nil_2.
Defined.

(** X16: [focusNextById] on a collection id under which nothing truthy is
    registered returns a record with [ref = null], [DOMRef = null],
    [applied = false], that collection id and no [id], and the world is as
    it was, whatever the options. *)
Theorem focusNextById_without_collection findDOMNode collectionId o w :
  truthy (get collectionId JUndefined w) = false ->
  focusNextById findDOMNode collectionId o w
  = (mkFocus JNull JNull JUndefined collectionId (o_context o) (JBool false), w).
Proof.
  intros Hmiss. unfold focusNextById.
  by rewrite focusNext_without_collection.
Qed.

Lemma focusNextById_without_collection_witness :
  focusNextById no_dom (JStr "users")
    (towards FocusDirection.DOWN (JStr "grid") None true) world_grid
  = (mkFocus JNull JNull JUndefined (JStr "users") JUndefined (JBool false), world_grid).
Proof.
  apply (focusNextById_without_collection no_dom (JStr "users")
           (towards FocusDirection.DOWN (JStr "grid") None true) world_grid).
  reflexivity.
Defined.

(** ** Listeners *)

Lemma removeFocusChangeListener_found listener w (i : nat) :
  _focusListeners (this w) !! i = Some listener ->
  listener ∉ take i (_focusListeners (this w)) ->
  removeFocusChangeListener listener w
  = set_listeners w (take i (_focusListeners (this w))
                     ++ drop (2 * i + 1) (_focusListeners (this w))).
Proof.
  intros Hi Hfirst. unfold removeFocusChangeListener.
  rewrite (indexOf_first _ _ i Hi Hfirst).
  destruct (Z.eqb_spec (Z.of_nat i) (-1)) as [?|_]; [lia|].
  change (negb false) with true. cbv iota.
  rewrite splice_head by (apply lookup_lt_Some in Hi; lia).
  replace (Z.of_nat i + 1) with (Z.of_nat (S i)) by lia.
  rewrite splice_tail. cbv iota beta. rewrite drop_drop.
  do 3 f_equal. lia.
Qed.

(** X17: [addFocusChangeListener] returns the listener it was given, and
    removing a listener that has just been added, and was not registered
    before, gives back the instance as it was. *)
Theorem add_then_remove_listener_restores listener w :
  listener ∉ _focusListeners (this w) ->
  (addFocusChangeListener listener w).1 = listener
  /\ removeFocusChangeListener listener (addFocusChangeListener listener w).2 = w.
Proof.
  intros Hnew. split; [done|].
  rewrite (removeFocusChangeListener_found listener _ (length (_focusListeners (this w)))).
  - simpl. rewrite take_app_length.
    rewrite drop_ge by (rewrite length_app; simpl; lia).
    rewrite app_nil_r. by destruct w as [h [refs focused ls] t].
  - simpl. by rewrite list_lookup_middle.
  - simpl. by rewrite take_app_length.
Qed.

Lemma add_then_remove_listener_restores_witness :
  removeFocusChangeListener (JObj 9%nat)
    (addFocusChangeListener (JObj 9%nat) world_three_listeners).2
  = world_three_listeners.
Proof.
  apply (add_then_remove_listener_restores (JObj 9%nat) world_three_listeners).
  simpl. intros H. repeat (apply elem_of_cons in H as [H|H]; [discriminate H|]).
  by apply elem_of_nil in H.
Defined.

(** X18: when every listener is registered once, [removeFocusChangeListener]
    of a registered listener leaves a shorter list in which that listener
    is no more, and which holds listeners of the old list only, in their old
    order; the registry and the current focus are not touched. *)
Theorem removeFocusChangeListener_unregisters listener w :
  NoDup (_focusListeners (this w)) ->
  listener ∈ _focusListeners (this w) ->
  let w' := removeFocusChangeListener listener w in
  (listener ∉ _focusListeners (this w'))
  /\ (_focusListeners (this w') `sublist_of` _focusListeners (this w))
  /\ (length (_focusListeners (this w')) < length (_focusListeners (this w)))%nat
  /\ _refs (this w') = _refs (this w)
  /\ _focused (this w') = _focused (this w)
  /\ store w' = store w /\ trace w' = trace w.
Proof.
  intros Hnd Hin w'.
  destruct (list_elem_of_lookup_1 _ _ Hin) as [i Hi].
  pose proof (lookup_lt_Some _ _ _ Hi) as Hlt.
  subst w'.
  rewrite (removeFocusChangeListener_found listener w i Hi (NoDup_first _ _ _ Hnd Hi)).
  simpl. split; [|split; [|split]].
  - intros [Hl | Hr]%elem_of_app.
    + by apply (NoDup_first _ _ _ Hnd Hi).
    + apply list_elem_of_lookup_1 in Hr as [j Hj]. rewrite lookup_drop in Hj.
      pose proof (NoDup_lookup _ _ _ _ Hnd Hi Hj). lia.
  - rewrite <- (take_drop i (_focusListeners (this w))) at 3.
    apply sublist_app; [done|].
    replace (drop (i + (i + 0) + 1) (_focusListeners (this w)))
      with (drop (i + 1) (drop i (_focusListeners (this w))))
      by (rewrite drop_drop; f_equal; lia).
    apply sublist_drop.
  - rewrite length_app, length_take, length_drop. lia.
  - done.
Qed.

Lemma removeFocusChangeListener_unregisters_witness :
  JObj 0%nat
    ∉ _focusListeners (this (removeFocusChangeListener (JObj 0%nat) world_three_listeners)).
Proof.
  apply (removeFocusChangeListener_unregisters (JObj 0%nat) world_three_listeners).
  - simpl.
    repeat (apply NoDup_cons; split;
            [intros H; repeat (apply elem_of_cons in H as [H|H]; [discriminate H|]);
             by apply elem_of_nil in H|]).
    apply NoDup_nil_2.
  - simpl. apply list_elem_of_here.
Defined.

(** X19: a listener is called after those registered before it: once
    [addFocusChangeListener(listener)] has returned, [setCurrentFocus(r)]
    calls the earlier listeners in their order and then [listener], all
    with the previous focus and [r]; a listener that was registered already
    is so called once more. *)
Theorem added_listener_is_called_last listener r w :
  trace (setCurrentFocus r (addFocusChangeListener listener w).2).2
  = trace w
    ++ ((fun l => ListenerCall l (getCurrentFocus w) r) <$> _focusListeners (this w))
    ++ [ListenerCall listener (getCurrentFocus w) r].
Proof. rewrite setCurrentFocus_spec. simpl. by rewrite fmap_app. Qed.

(** X20: the previous focus that listeners receive is the record of the
    last [setCurrentFocus]: after [setCurrentFocus(r1)] and then
    [setCurrentFocus(r2)], every listener has been called with what was
    current and [r1], and then every listener with [r1] and [r2]. *)
Theorem setCurrentFocus_twice_chains_previous r1 r2 w :
  trace (setCurrentFocus r2 (setCurrentFocus r1 w).2).2
  = trace w
    ++ ((fun l => ListenerCall l (getCurrentFocus w) r1) <$> _focusListeners (this w))
    ++ ((fun l => ListenerCall l r1 r2) <$> _focusListeners (this w))
  /\ getCurrentFocus (setCurrentFocus r2 (setCurrentFocus r1 w).2).2 = r2.
Proof. rewrite !setCurrentFocus_spec. simpl. by rewrite <- app_assoc. Qed.

(** ** Scrolling and unmounted refs *)

(** X21: [scrollToFocused] reports the [id], [collectionId] and [ref] of
    the current focus, scrolls to its [DOMRef] through [RefManager.scrollTo]
    and sets [applied] by the element that comes back; the instance and the
    store are what they were. When the current focus has no [DOMRef], as on
    a new instance, nothing is asked of the browser and [applied] is
    false. *)
Theorem scrollToFocused_reports_current_focus findDOMNode options w :
  let r := (scrollToFocused findDOMNode options w).1 in
  let w' := (scrollToFocused findDOMNode options w).2 in
  s_id r = f_id (getCurrentFocus w)
  /\ s_collectionId r = f_collectionId (getCurrentFocus w)
  /\ s_ref r = f_ref (getCurrentFocus w)
  /\ s_DOMRef r
     = (static_scrollTo findDOMNode (f_DOMRef (getCurrentFocus w)) options w).1
  /\ s_applied r = JBool (truthy (s_DOMRef r))
  /\ this w' = this w /\ store w' = store w
  /\ (truthy (f_DOMRef (getCurrentFocus w)) = false ->
      s_DOMRef r = JNull /\ s_applied r = JBool false /\ w' = w).
Proof.
  intros r w'. subst r w'. unfold scrollToFocused.
  assert (static_scrollTo findDOMNode (f_DOMRef (getCurrentFocus w))
            (or_NotProvided options) w
          = static_scrollTo findDOMNode (f_DOMRef (getCurrentFocus w)) options w) as ->.
  { unfold static_scrollTo. by rewrite or_NotProvided_idemp. }
  pose proof (static_scrollTo_untouched findDOMNode (f_DOMRef (getCurrentFocus w))
                options w) as (Hthis & Hstore & _).
  assert (truthy (f_DOMRef (getCurrentFocus w)) = false ->
          static_scrollTo findDOMNode (f_DOMRef (getCurrentFocus w)) options w
          = (JNull, w)) as Hnone.
  { intros H. unfold static_scrollTo. by rewrite H. }
  destruct (static_scrollTo findDOMNode (f_DOMRef (getCurrentFocus w)) options w)
    as [el w1]. simpl in *.
  do 7 (split; [done|]).
  intros H. apply Hnone in H. by injection H as -> ->.
Qed.

Lemma scrollToFocused_reports_current_focus_witness :
  s_applied (scrollToFocused no_dom JUndefined world_one_listener).1 = JBool false
  /\ (scrollToFocused no_dom JUndefined world_one_listener).2 = world_one_listener.
Proof.
  destruct (scrollToFocused_reports_current_focus no_dom JUndefined world_one_listener)
    as (_ & _ & _ & _ & _ & _ & _ & H).
  destruct (H eq_refl) as (_ & Happlied & Hw). split; [exact Happlied | exact Hw].
Defined.

(** X22: [scrollToById] on an id, or on a collection id and an item id
    that is a string, under which nothing truthy is registered returns
    [ref = null], [DOMRef = null] and [applied = false] and leaves the world
    as it was; the [id] of the record is the item id, and [NotProvided] when
    no item id was given. *)
Theorem scrollToById_miss findDOMNode collectionId itemId w :
  itemId = JUndefined \/ typeof itemId = "string" ->
  truthy (get collectionId itemId w) = false ->
  scrollToById findDOMNode collectionId itemId JUndefined w
  = (mkScroll (or_NotProvided itemId) collectionId JNull JNull (JBool false), w).
Proof.
  intros Hid Hmiss. unfold scrollToById.
  change (or_NotProvided JUndefined) with NotProvided.
  assert (scrollToById_args (or_NotProvided itemId) NotProvided
          = (or_NotProvided itemId, NotProvided)) as ->.
  { unfold scrollToById_args. simpl.
    destruct (strict_eq (or_NotProvided itemId) NotProvided) eqn:E.
    - apply strict_eq_true in E. by rewrite E.
    - destruct Hid as [-> | Hty]; [done|].
      destruct itemId; try discriminate Hty. done. }
  by rewrite get_or_NotProvided, Hmiss.
Qed.

Lemma scrollToById_miss_witness :
  scrollToById no_dom (JStr "toolbar") JUndefined JUndefined world_scroll
  = (mkScroll NotProvided (JStr "toolbar") JNull JNull (JBool false), world_scroll).
Proof.
  apply (scrollToById_miss no_dom (JStr "toolbar") JUndefined world_scroll);
    [by left | reflexivity].
Defined.

(** X23: a ref mounted and then taken away. On a plain registry and with
    identifiers, [set(c, i, el)] under a collection identifier that holds
    nothing, followed by React's [set(c, i, null)] at unmount, both return;
    [get(c, i)] is then [null], and a [focusById(c, i)] that follows finds
    no ref: it returns the record of [i] and [c] with [ref = null] and
    [applied = false], and the world, the current focus included, stays as
    the second [set] left it. *)
Theorem focusById_after_unmount findDOMNode c i el w :
  is_identifier c = true -> is_identifier i = true -> truthy i = true ->
  registry_is_plain w ->
  el <> JUndefined -> el <> NotProvided ->
  truthy (get c JUndefined w) = false ->
  exists w1 w2,
    set c i el w = Returns w1 /\ set c i JNull w1 = Returns w2
    /\ get c i w2 = JNull
    /\ focusById findDOMNode c i JUndefined w2
       = (mkFocus JNull JNull i c JUndefined (JBool false), w2).
Proof.
  intros Hc Hi Htr _ Hel Helnp Hempty.
  destruct (is_identifier_defined c Hc) as [Hcd _].
  destruct (is_identifier_defined i Hi) as [Hid Hnp].
  assert (typeof i <> "object") as Hty by (by destruct i).
  rewrite (get_singular c _ Hcd) in Hempty.
  destruct (set_item_on_empty_returns c i el w Hel Helnp Hempty) as [w1 Hset1].
  destruct (set_item_result c i el w w1 Hel Helnp Hset1) as (l & ps & Hl & _).
  assert (JNull <> JUndefined) as Hn by discriminate.
  assert (JNull <> NotProvided) as Hnn by discriminate.
  assert (exists w2, set c i JNull w1 = Returns w2) as [w2 Hset2]
    by (rewrite (set_item_on_object c i JNull l w1 Hn Hnn Hl); eauto).
  exists w1, w2. split; [done|]. split; [done|].
  assert (get c i w2 = JNull) as Hget
    by (by apply (get_item_after_set c i JNull c i w1 w2)).
  split; [done|].
  unfold focusById. simpl. rewrite (or_NotProvided_defined i Hid).
  unfold focusById_args.
  apply strict_eq_false in Hnp as ->. apply String.eqb_neq in Hty as ->.
  rewrite Htr, Hget. by rewrite focus_absent.
Qed.

Lemma focusById_after_unmount_witness :
  exists w1 w2,
    set (JStr "items") (JStr "b") (JObj 1%nat) world_two_elements = Returns w1
    /\ set (JStr "items") (JStr "b") JNull w1 = Returns w2
    /\ get (JStr "items") (JStr "b") w2 = JNull
    /\ focusById no_dom (JStr "items") (JStr "b") JUndefined w2
       = (mkFocus JNull JNull (JStr "b") (JStr "items") JUndefined (JBool false), w2).
Proof.
  apply (focusById_after_unmount no_dom (JStr "items") (JStr "b") (JObj 1%nat)
           world_two_elements); try discriminate; reflexivity.
Defined.

(** ** What each operation may write *)

Lemma static_focus_trace findDOMNode ref w :
  exists evs, trace (static_focus findDOMNode ref w).2 = trace w ++ evs.
Proof.
  unfold static_focus. repeat case_match; simpl; eauto; exists []; by rewrite app_nil_r.
Qed.

Lemma static_scrollTo_trace findDOMNode ref options w :
  exists evs, trace (static_scrollTo findDOMNode ref options w).2 = trace w ++ evs.
Proof.
  unfold static_scrollTo. repeat case_match; simpl; eauto; exists []; by rewrite app_nil_r.
Qed.

Lemma focus_frame findDOMNode ref options w :
  _refs (this (focus findDOMNode ref options w).2) = _refs (this w)
  /\ store (focus findDOMNode ref options w).2 = store w
  /\ _focusListeners (this (focus findDOMNode ref options w).2) = _focusListeners (this w)
  /\ exists evs, trace (focus findDOMNode ref options w).2 = trace w ++ evs.
Proof.
  destruct (truthy ref) eqn:Href.
  - rewrite (focus_present _ _ _ _ Href), setCurrentFocus_spec. simpl.
    destruct (static_focus_untouched findDOMNode ref w) as (-> & -> & _).
    destruct (static_focus_trace findDOMNode ref w) as [evs ->].
    repeat split. rewrite <- app_assoc. eauto.
  - rewrite (focus_absent _ _ _ _ Href). simpl.
    repeat split. exists []. by rewrite app_nil_r.
Qed.

Lemma Returns_inj {A} (a b : A) : Returns a = Returns b -> a = b.
Proof. congruence. Qed.

(** X24: a call that returns writes only to what is its own. The registry
    and the store change under [set] alone, the list of listeners under
    [addFocusChangeListener] and [removeFocusChangeListener] alone, the
    current focus under [setCurrentFocus] and the four focus operations
    alone; and the trace of calls to the browser and to listeners only ever
    grows at its end. *)
Theorem calls_write_only_their_own_state findDOMNode c w w' :
  run findDOMNode c w = Returns w' ->
  (writes_registry c = false ->
   _refs (this w') = _refs (this w) /\ store w' = store w)
  /\ (writes_listeners c = false -> _focusListeners (this w') = _focusListeners (this w))
  /\ (writes_focus c = false -> _focused (this w') = _focused (this w))
  /\ exists evs, trace w' = trace w ++ evs.
Proof.
  intros Hrun.
  assert (forall ref opts,
            (focus findDOMNode ref opts w).2 = w' ->
            (_refs (this w') = _refs (this w) /\ store w' = store w)
            /\ _focusListeners (this w') = _focusListeners (this w)
            /\ exists evs, trace w' = trace w ++ evs) as Hfocus.
  { intros ref opts <-.
    destruct (focus_frame findDOMNode ref opts w) as (? & ? & ? & ?). done. }
  assert (exists evs, trace w = trace w ++ evs) as Hsame
    by (exists []; by rewrite app_nil_r).
  destruct c; cbn [run] in Hrun.
  - apply set_trace in Hrun as (-> & -> & ->). by repeat split.
  - apply Returns_inj in Hrun as <-. by repeat split.
  - apply Returns_inj in Hrun as <-. rewrite setCurrentFocus_spec. simpl.
    repeat split; try done. eauto.
  - apply Returns_inj in Hrun as <-. by repeat split.
  - apply Returns_inj in Hrun as <-. by repeat split.
  - apply Returns_inj in Hrun. destruct (Hfocus _ _ Hrun) as (? & ? & ?).
    split; [done|]. split; [done|]. split; [discriminate | done].
  - apply Returns_inj in Hrun.
    destruct (focusById_is_focus findDOMNode collectionId itemIdOrOptions options w)
      as (ref & opts & Heq). rewrite Heq in Hrun.
    destruct (Hfocus _ _ Hrun) as (? & ? & ?).
    split; [done|]. split; [done|]. split; [discriminate | done].
  - apply Returns_inj in Hrun. unfold focusNextById in Hrun.
    destruct (focusNext_is_focus findDOMNode (get collectionId JUndefined w)
                (mkNextOptions (o_direction o) (o_indexes o) collectionId (o_context o)
                   (o_collectionWidth o) (o_yWrap o) (o_xWrap o)) w)
      as [Heq | (ref & opts & Heq)]; rewrite Heq in Hrun.
    + subst w'. by repeat split.
    + destruct (Hfocus _ _ Hrun) as (? & ? & ?).
    split; [done|]. split; [done|]. split; [discriminate | done].
  - apply Returns_inj in Hrun.
    destruct (focusNext_is_focus findDOMNode refCollection o w)
      as [Heq | (ref & opts & Heq)]; rewrite Heq in Hrun.
    + subst w'. by repeat split.
    + destruct (Hfocus _ _ Hrun) as (? & ? & ?).
    split; [done|]. split; [done|]. split; [discriminate | done].
  - apply Returns_inj in Hrun as <-.
    destruct (scrollToById_untouched findDOMNode collectionId itemIdOrOptions options w)
      as (Hthis & Hstore & _).
    assert (exists evs, trace (scrollToById findDOMNode collectionId itemIdOrOptions
                                 options w).2 = trace w ++ evs) as Htr.
    { unfold scrollToById.
      destruct (scrollToById_args _ _) as [_itemId _options].
      destruct (truthy _); [|done].
      pose proof (static_scrollTo_trace findDOMNode
                    (get_prop (store w) (get collectionId _itemId w) "DOMRef")
                    _options w) as H.
      by destruct (static_scrollTo _ _ _ _). }
    rewrite Hthis, Hstore. by repeat split.
  - apply Returns_inj in Hrun as <-.
    destruct (scrollToFocused_untouched findDOMNode options w) as (Hthis & Hstore & _).
    assert (exists evs, trace (scrollToFocused findDOMNode options w).2 = trace w ++ evs)
      as Htr.
    { unfold scrollToFocused.
      pose proof (static_scrollTo_trace findDOMNode (f_DOMRef (getCurrentFocus w))
                    (or_NotProvided options) w) as H.
      by destruct (static_scrollTo _ _ _ _). }
    rewrite Hthis, Hstore. by repeat split.
  - apply Returns_inj in Hrun as <-. by repeat split.
  - apply Returns_inj in Hrun as <-. unfold removeFocusChangeListener.
    destruct (negb _); [|by repeat split].
    destruct (splice _ 0 _) as [hd rest].
    destruct (splice rest _ _) as [tl rest']. by repeat split.
  - apply Returns_inj in Hrun as <-.
    destruct (static_focus_untouched findDOMNode ref w) as (Hthis & Hstore & _).
    pose proof (static_focus_trace findDOMNode ref w).
    rewrite Hthis, Hstore. by repeat split.
  - apply Returns_inj in Hrun as <-.
    destruct (static_scrollTo_untouched findDOMNode ref options w) as (Hthis & Hstore & _).
    pose proof (static_scrollTo_trace findDOMNode ref options w).
    rewrite Hthis, Hstore. by repeat split.
  - apply Returns_inj in Hrun as <-. by repeat split.
Qed.

Lemma calls_write_only_their_own_state_witness :
  _refs (this (focusNextById no_dom (JStr "grid")
                 (towards FocusDirection.RIGHT JUndefined None false) world_grid).2)
  = _refs (this world_grid).
Proof.
  apply (calls_write_only_their_own_state no_dom
           (Call_focusNextById (JStr "grid")
              (towards FocusDirection.RIGHT JUndefined None false)) world_grid);
    reflexivity.
Defined.

(** ** An options hash in the place of the item id *)

Lemma prop_get_obj_assign_absent base src k :
  prop_lookup src k = None ->
  prop_get (obj_assign base src) k = prop_get base k.
Proof.
  unfold obj_assign. revert base.
  induction src as [|[k' v'] src IH]; intros base Hk; [done|].
  simpl in *. destruct (String.eqb k' k) eqn:E; [done|].
  rewrite (IH _ Hk). apply prop_get_set_ne. by apply String.eqb_neq.
Qed.

Lemma prop_lookup_None_not_in src k :
  k ∉ src.*1 -> prop_lookup src k = None.
Proof.
  induction src as [|[k' v'] src IH]; intros Hk; [done|].
  simpl in *. destruct (String.eqb k' k) eqn:E.
  - apply String.eqb_eq in E as ->. destruct Hk. apply list_elem_of_here.
  - apply IH. intros Hin. apply Hk. by apply list_elem_of_further.
Qed.

Lemma prop_get_obj_assign_present base src k v :
  NoDup src.*1 ->
  prop_lookup src k = Some v ->
  prop_get (obj_assign base src) k = v.
Proof.
  unfold obj_assign. revert base.
  induction src as [|[k' v'] src IH]; intros base Hnd Hk; [done|].
  simpl in *. apply NoDup_cons in Hnd as [Hk' Hnd].
  destruct (String.eqb k' k) eqn:E.
  - apply String.eqb_eq in E as ->. injection Hk as ->.
    change (fold_left _ src ?b) with (obj_assign b src).
    rewrite prop_get_obj_assign_absent by (by apply prop_lookup_None_not_in).
    apply prop_get_set_eq.
  - by apply IH.
Qed.

(** X25: in [focusById(collectionId, options)], where an options hash
    stands in the place of the item id, the ref is the entry under
    [collectionId], and [id], [collectionId] and [context] of the record are
    read from the hash: its [collectionId], when it has one, replaces the
    argument. (After an item id the hash cannot do so, see X10.) *)
Theorem focusById_options_in_place_of_item_id findDOMNode collectionId l w :
  NoDup (own_props (store w) (JObj l)).*1 ->
  let opts := own_props (store w) (JObj l) in
  let r := (focusById findDOMNode collectionId (JObj l) JUndefined w).1 in
  f_ref r = (if truthy (get collectionId JUndefined w)
             then get collectionId JUndefined w else JNull)
  /\ f_id r = prop_get opts "id"
  /\ f_collectionId r = default collectionId (prop_lookup opts "collectionId")
  /\ f_context r = prop_get opts "context".
Proof.
  intros Hnd opts r. subst r.
  assert (focusById findDOMNode collectionId (JObj l) JUndefined w
          = focus findDOMNode (get collectionId JUndefined w)
                  (obj_assign [("collectionId", collectionId)] opts) w) as -> by done.
  assert (prop_get (obj_assign [("collectionId", collectionId)] opts) "id"
          = prop_get opts "id") as Hid.
  { unfold prop_get at 2. destruct (prop_lookup opts "id") as [v|] eqn:E.
    - by apply prop_get_obj_assign_present.
    - by rewrite prop_get_obj_assign_absent. }
  assert (prop_get (obj_assign [("collectionId", collectionId)] opts) "context"
          = prop_get opts "context") as Hctx.
  { unfold prop_get at 2. destruct (prop_lookup opts "context") as [v|] eqn:E.
    - by apply prop_get_obj_assign_present.
    - by rewrite prop_get_obj_assign_absent. }
  assert (prop_get (obj_assign [("collectionId", collectionId)] opts) "collectionId"
          = default collectionId (prop_lookup opts "collectionId")) as Hcid.
  { destruct (prop_lookup opts "collectionId") as [v|] eqn:E.
    - by apply prop_get_obj_assign_present.
    - by rewrite prop_get_obj_assign_absent. }
  destruct (truthy (get collectionId JUndefined w)) eqn:Href.
  - rewrite (focus_present _ _ _ _ Href), setCurrentFocus_spec. simpl.
    by rewrite Hid, Hcid, Hctx.
  - rewrite (focus_absent _ _ _ _ Href). simpl. by rewrite Hid, Hcid, Hctx.
Qed.

Lemma focusById_options_in_place_of_item_id_witness :
  f_collectionId (focusById no_dom (JStr "grid") (JObj 7%nat) JUndefined world_grid).1
  = JStr "grid".
Proof.
  apply (focusById_options_in_place_of_item_id no_dom (JStr "grid") 7%nat world_grid).
  replace ((own_props (store world_grid) (JObj 7%nat)).*1)
    with ["a"; "b"; "c"; "d"; "e"; "f"] by (by vm_compute).
  repeat (apply NoDup_cons; split;
          [intros H; repeat (apply elem_of_cons in H as [H|H]; [discriminate H|]);
           by apply elem_of_nil in H|]).
  apply NoDup_nil_2.
Defined.

(** * The earlier revision *)

Lemma legacy_dom_focus_cases findDOMNode ref w :
  (if truthy (get_prop (store w) ref "focus") then Returns (emit (DomFocus ref) w)
   else match findDOMNode ref with
        | JNull | JUndefined => Throws "TypeError"
        | node => Returns (emit (DomFocus node) w)
        end)
  = (if truthy (get_prop (store w) ref "focus") then Returns (emit (DomFocus ref) w)
     else if bool_decide (findDOMNode ref = JNull \/ findDOMNode ref = JUndefined)
          then Throws "TypeError"
          else Returns (emit (DomFocus (findDOMNode ref)) w)).
Proof.
  destruct (truthy _); [done|].
  destruct (findDOMNode ref) eqn:E; try done.
Qed.

(** X26: the earlier [focus] throws in two situations, both with a ref
    that is there: the ref has no [focus] of its own and [findDOMNode]
    finds no node for it, or no options were given (as in a call
    [focus(ref)]). *)
Theorem legacy_focus_throws_iff findDOMNode ref options w :
  (exists e, Legacy.focus findDOMNode ref options w = Throws e)
  <-> (truthy ref = true
       /\ ((truthy (get_prop (store w) ref "focus") = false
            /\ (findDOMNode ref = JNull \/ findDOMNode ref = JUndefined))
           \/ options = None)).
Proof.
  unfold Legacy.focus.
  destruct (truthy ref); [|split; [intros [e [=]] | by intros [[=] _]]].
  rewrite legacy_dom_focus_cases.
  destruct (truthy (get_prop (store w) ref "focus")).
  - destruct options as [ps|].
    + split; [|by intros (_ & [[[=] _] | [=]])].
      destruct (negb _); [|by intros [e [=]]].
      destruct (setCurrentFocus _ _). by intros [e [=]].
    + split; eauto.
  - case_bool_decide as Hnode.
    + split; eauto.
    + destruct options as [ps|].
      * split; [|by intros (_ & [[_ ?] | [=]])].
        destruct (negb _); [|by intros [e [=]]].
        destruct (setCurrentFocus _ _). by intros [e [=]].
      * split; eauto.
Qed.

Lemma legacy_focus_throws_iff_witness :
  exists e, Legacy.focus no_dom (JObj 1%nat) None world_grid = Throws e.
Proof.
  apply (proj2 (legacy_focus_throws_iff no_dom (JObj 1%nat) None world_grid)).
  split; [reflexivity | by right].
Defined.

(** X27: when the earlier [focus] returns, it has either returned nothing
    and left the instance and the store as they were, calling no listener
    (the ref was absent, or [DOMOnly] was [true]: then the browser alone was
    asked), or it has returned the record of [ref], [id] and [context],
    which is now the current focus. *)
Theorem legacy_focus_returns findDOMNode ref options w res w' :
  Legacy.focus findDOMNode ref options w = Returns (res, w') ->
  match res with
  | None =>
      instance_untouched w w'
      /\ (truthy ref = false
          \/ exists ps, options = Some ps /\ prop_get ps "DOMOnly" = JBool true)
  | Some r =>
      exists ps, options = Some ps
        /\ r = mkFocus ref JUndefined (prop_get ps "id") JUndefined
                 (prop_get ps "context") JUndefined
        /\ getCurrentFocus w' = r
        /\ prop_get ps "DOMOnly" <> JBool true
  end.
Proof.
  unfold Legacy.focus.
  destruct (truthy ref) eqn:Href.
  - rewrite legacy_dom_focus_cases.
    assert (forall el,
              match options with
              | Some ps =>
                  if negb (strict_eq (prop_get ps "DOMOnly") (JBool true)) then
                    let '(r, w2) :=
                      setCurrentFocus
                        (mkFocus ref JUndefined (prop_get ps "id") JUndefined
                           (prop_get ps "context") JUndefined) (emit (DomFocus el) w) in
                    Returns (Some r, w2)
                  else Returns (None, emit (DomFocus el) w)
              | None => Throws "TypeError"
              end = Returns (res, w') ->
              match res with
              | None =>
                  instance_untouched w w'
                  /\ (true = false
                      \/ exists ps, options = Some ps /\ prop_get ps "DOMOnly" = JBool true)
              | Some r =>
                  exists ps, options = Some ps
                    /\ r = mkFocus ref JUndefined (prop_get ps "id") JUndefined
                             (prop_get ps "context") JUndefined
                    /\ getCurrentFocus w' = r
                    /\ prop_get ps "DOMOnly" <> JBool true
              end) as Hrest.
    { intros el. destruct options as [ps|]; [|done].
      destruct (strict_eq (prop_get ps "DOMOnly") (JBool true)) eqn:Hdom; cbn [negb].
      - intros [= <- <-]. apply strict_eq_true in Hdom.
        split; [|eauto].
        repeat split. apply (listener_calls_emit (DomFocus el)). done.
      - rewrite setCurrentFocus_spec. intros [= <- <-].
        apply strict_eq_false in Hdom. eauto. }
    destruct (truthy (get_prop (store w) ref "focus")); [apply Hrest|].
    case_bool_decide; [done | apply Hrest].
  - intros [= <- <-]. split; [apply instance_untouched_refl | by left].
Qed.

Lemma legacy_focus_returns_witness :
  instance_untouched world_grid (emit (DomFocus (JObj 1%nat)) world_grid).
Proof.
  apply (legacy_focus_returns no_dom (JObj 1%nat) (Some [("DOMOnly", JBool true)])
           world_grid None (emit (DomFocus (JObj 1%nat)) world_grid)).
  reflexivity.
Defined.

Lemma legacy_indexesToUse_returns refCollection o w ids :
  Legacy.indexesToUse refCollection o w = Returns ids ->
  ids = indexesToUse refCollection o w.
Proof.
  unfold Legacy.indexesToUse, indexesToUse.
  destruct (o_indexes o); [by intros [= ->]|].
  by destruct refCollection; intros [= ->].
Qed.

Lemma legacy_read_item_object l key w :
  Legacy.read_item (JObj l) key w = Returns (get_prop (store w) (JObj l) (to_key key)).
Proof. done. Qed.

Lemma truthy_get_prop_object h v k :
  truthy (get_prop h v k) = true -> exists l, v = JObj l.
Proof. destruct v; try discriminate. eauto. Qed.

(** The earlier [focus] on a ref that is there, with [{ id, context }]. *)
Lemma legacy_focus_and_report findDOMNode ref id context w res w1 :
  truthy ref = true ->
  Legacy.focus_and_report findDOMNode ref id context w = Returns (res, w1) ->
  res = Some (mkFocus ref JUndefined id JUndefined context JUndefined)
  /\ getCurrentFocus w1 = mkFocus ref JUndefined id JUndefined context JUndefined.
Proof.
  intros Href. unfold Legacy.focus_and_report.
  destruct (Legacy.focus findDOMNode ref _ w) as [[res0 w0]|e] eqn:Hf; [|done].
  intros [= <- <-].
  apply legacy_focus_returns in Hf. destruct res0 as [r|].
  - destruct Hf as (ps & [= <-] & -> & Hcur & _). by rewrite Hcur.
  - destruct Hf as (_ & [Hf | (ps & [= <-] & Hf)]); [congruence | done].
Qed.

(** X28: the two revisions agree on a cold start. When the id of the
    current focus is not among the candidates, the first candidate has a
    ref in the collection and the earlier [focusNext] returns a record, the
    later [focusNext] returns a record with the same [ref], [id] and
    [context]: the ref of the first candidate, and its identifier. *)
Theorem focusNext_agrees_with_legacy_on_cold_start findDOMNode refCollection o w
    first rest r w1 :
  indexesToUse refCollection o w = first :: rest ->
  f_id (getCurrentFocus w) ∉ first :: rest ->
  truthy (get_prop (store w) refCollection (to_key first)) = true ->
  Legacy.focusNext findDOMNode refCollection o w = Returns (Some r, w1) ->
  f_ref r = get_prop (store w) refCollection (to_key first)
  /\ f_id r = first
  /\ f_ref (focusNext findDOMNode refCollection o w).1 = f_ref r
  /\ f_id (focusNext findDOMNode refCollection o w).1 = f_id r
  /\ f_context (focusNext findDOMNode refCollection o w).1 = f_context r.
Proof.
  intros Hids Hnew Href Hlegacy.
  destruct (truthy_get_prop_object _ _ _ Href) as [l ->].
  unfold Legacy.focusNext in Hlegacy.
  destruct (Legacy.indexesToUse (JObj l) o w) as [ids|e] eqn:Hix; [|done].
  apply legacy_indexesToUse_returns in Hix. rewrite Hids in Hix. subst ids.
  unfold indexOf in Hlegacy. rewrite (indexOf_from_absent _ _ 0 Hnew) in Hlegacy.
  change (-1 =? -1) with true in Hlegacy. cbv iota in Hlegacy.
  change (array_get (first :: rest) 0) with first in Hlegacy.
  rewrite legacy_read_item_object in Hlegacy.
  apply (legacy_focus_and_report _ _ _ _ _ _ _ Href) in Hlegacy as [[= ->] _].
  rewrite (focusNext_reset findDOMNode (JObj l) o w eq_refl)
    by (right; by rewrite Hids).
  rewrite Hids. change (array_get (first :: rest) 0) with first.
  unfold focus_item. rewrite (focus_present _ _ _ _ Href), setCurrentFocus_spec.
  done.
Qed.

Lemma focusNext_agrees_with_legacy_on_cold_start_witness :
  f_id (focusNext no_dom (JObj 7%nat) no_options
          (mkWorld (store world_grid) (mkRefManager [("grid", JObj 7%nat)] empty_object [])
             [])).1
  = JStr "a".
Proof.
  pose (r := mkFocus (JObj 1%nat) JUndefined (JStr "a") JUndefined JUndefined JUndefined).
  change (JStr "a") with (f_id r).
  apply (focusNext_agrees_with_legacy_on_cold_start no_dom (JObj 7%nat) no_options
           (mkWorld (store world_grid)
              (mkRefManager [("grid", JObj 7%nat)] empty_object []) [])
           (JStr "a") [JStr "b"; JStr "c"; JStr "d"; JStr "e"; JStr "f"] r
           (mkWorld (store world_grid) (mkRefManager [("grid", JObj 7%nat)] r [])
              [DomFocus (JObj 1%nat)])).
  - by vm_compute.
  - intros H. repeat (apply elem_of_cons in H as [H|H]; [discriminate H|]).
    by apply elem_of_nil in H.
  - by vm_compute.
  - by vm_compute.
Defined.

(** X29: the earlier [focusNext] takes no account of the collection that
    the focus is in. Whenever the id of the current focus is a candidate at
    index [i] and the candidate at index [i + 1] has a ref with a [focus]
    of its own, RIGHT moves the focus there and returns the new current
    focus, of that ref, that identifier and the [context] given. *)
Theorem legacy_focusNext_right_ignores_collection findDOMNode l o w (i : nat) next :
  o_direction o = FocusDirection.RIGHT \/ o_direction o = JUndefined ->
  indexesToUse (JObj l) o w !! i = Some (f_id (getCurrentFocus w)) ->
  f_id (getCurrentFocus w) ∉ take i (indexesToUse (JObj l) o w) ->
  indexesToUse (JObj l) o w !! (i + 1)%nat = Some next ->
  truthy (get_prop (store w) (JObj l) (to_key next)) = true ->
  truthy (get_prop (store w) (get_prop (store w) (JObj l) (to_key next)) "focus") = true ->
  exists w',
    Legacy.focusNext findDOMNode (JObj l) o w
    = Returns (Some (mkFocus (get_prop (store w) (JObj l) (to_key next)) JUndefined next
                       JUndefined (o_context o) JUndefined), w')
    /\ getCurrentFocus w'
       = mkFocus (get_prop (store w) (JObj l) (to_key next)) JUndefined next
           JUndefined (o_context o) JUndefined.
Proof.
  intros Hdir Hi Hfirst Hn Href Hown.
  unfold Legacy.focusNext.
  assert (Legacy.indexesToUse (JObj l) o w = Returns (indexesToUse (JObj l) o w)) as ->.
  { unfold Legacy.indexesToUse, indexesToUse. by destruct (o_indexes o). }
  rewrite (indexOf_first _ _ i Hi Hfirst).
  destruct (Z.eqb_spec (Z.of_nat i) (-1)) as [?|_]; [lia|].
  assert (match o_direction o with JUndefined => FocusDirection.RIGHT | d => d end
          = FocusDirection.RIGHT) as -> by (by destruct Hdir as [-> | ->]).
  rewrite nextRefId_RIGHT.
  pose proof (lookup_lt_Some _ _ _ Hn).
  destruct (Z.ltb_spec (Z.of_nat i + 1)
              (Z.of_nat (length (indexesToUse (JObj l) o w)))) as [_|?]; [|lia].
  replace (Z.of_nat i + 1) with (Z.of_nat (i + 1)) by lia.
  rewrite (array_get_lookup _ _ _ Hn), legacy_read_item_object, Href.
  unfold Legacy.focus_and_report, Legacy.focus. rewrite Href, Hown.
  change (negb (strict_eq (prop_get [("id", next); ("context", o_context o)] "DOMOnly")
                  (JBool true))) with true.
  cbv iota. rewrite setCurrentFocus_spec. eexists. split; [reflexivity | done].
Qed.

Lemma legacy_focusNext_right_ignores_collection_witness :
  exists w',
    Legacy.focusNext no_dom (JObj 7%nat)
      (towards FocusDirection.RIGHT (JStr "another") None false) world_grid
    = Returns (Some (mkFocus (JObj 6%nat) JUndefined (JStr "f") JUndefined JUndefined
                       JUndefined), w')
    /\ getCurrentFocus w'
       = mkFocus (JObj 6%nat) JUndefined (JStr "f") JUndefined JUndefined JUndefined.
Proof.
  apply (legacy_focusNext_right_ignores_collection no_dom 7%nat
           (towards FocusDirection.RIGHT (JStr "another") None false) world_grid
           4 (JStr "f")); try (by vm_compute).
  - by left.
  - replace (indexesToUse (JObj 7%nat)
               (towards FocusDirection.RIGHT (JStr "another") None false) world_grid)
      with [JStr "a"; JStr "b"; JStr "c"; JStr "d"; JStr "e"; JStr "f"]
      by (by vm_compute).
    simpl. intros H. repeat (apply elem_of_cons in H as [H|H]; [discriminate H|]).
    by apply elem_of_nil in H.
Defined.

(** X30: the earlier [focusNextById] throws on a collection id under which
    nothing is registered (or [null] is), whatever the options: with or
    without [indexes], it reads from the missing collection. *)
Theorem legacy_focusNextById_throws_without_collection findDOMNode collectionId o w :
  get collectionId JUndefined w = JUndefined \/ get collectionId JUndefined w = JNull ->
  exists e, Legacy.focusNextById findDOMNode collectionId o w = Throws e.
Proof.
  intros Hmiss. unfold Legacy.focusNextById, Legacy.focusNext, Legacy.indexesToUse.
  cbn [o_indexes].
  destruct (o_indexes o) as [ixs|].
  - destruct (_ =? -1); unfold Legacy.read_item;
      destruct Hmiss as [-> | ->]; eauto.
  - destruct Hmiss as [-> | ->]; eauto.
Qed.

Lemma legacy_focusNextById_throws_without_collection_witness :
  exists e,
    Legacy.focusNextById no_dom (JStr "users")
      (towards FocusDirection.RIGHT JUndefined None false) world_grid = Throws e.
Proof.
  apply (legacy_focusNextById_throws_without_collection no_dom (JStr "users")
           (towards FocusDirection.RIGHT JUndefined None false) world_grid).
  by left.
Defined.
